(** * VADER sentiment plugin: a shallow embedding of VADER_Sentiment_Engine.py

    The plugin is glue between three collaborators that are not part of the
    repository: the Alteryx engine and its Python SDK (record layouts, record
    creator and copier, output anchor), ElementTree (the configuration
    document) and the VADER analyzer.  The collaborators are modelled just
    far enough to run the plugin's callbacks: a record layout is a list of
    field descriptors, a record is a list of values, and everything the
    plugin tells the engine or its downstream tool is appended to a log of
    events.  Python exceptions are outcomes of a small state-and-error
    monad, so that what a callback had already done when it raised stays
    visible. *)

From Stdlib Require Import ZArith QArith Decimal DecimalString Ascii String.
From stdpp Require Import base option list.

Local Open Scope string_scope.
Local Open Scope list_scope.

(** Concatenation of strings, kept apart from [++] on lists. *)
Infix "+:+" := String.append (at level 60, right associativity).

(** ** SDK data: field types, field descriptors, record layouts, records *)

(** The members of [Sdk.FieldType] that the plugin names ([v_wstring],
    [double]) together with an integer and a narrow string type for input
    layouts. *)
Inductive FieldType := int64 | double | v_string | v_wstring.

Record Field := mkField {
  field_name : string;
  field_type : FieldType;
  field_size : nat
}.

(** [RecordInfo]: the ordered fields of a record layout. *)
Abbreviation RecordInfo := (list Field).

(** A decimal number as Python prints a float in positional notation: sign,
    integer digits, fraction digits. *)
Record Dec := mkDec {
  dneg : bool;
  dint : uint;
  dfrac : uint
}.

Inductive value :=
| VNull
| VInt (z : Z)
| VDouble (d : Dec)
| VStr (s : string).

(** A record: one value per field of its layout. *)
Abbreviation RecordRef := (list value).

(** A field object handed out by [record_info[i]]: the descriptor together
    with its position in the layout. *)
Record FieldObj := mkFieldObj {
  fo_pos : nat;
  fo_field : Field
}.

(** An attribute of the plugin that starts as a field name and is later
    rebound to a field object (lines 34-41 and 158-162). *)
Inductive attr :=
| AName (s : string)
| AField (f : FieldObj).

(** ** The configuration document *)

(** What [Et.fromstring] returns: an element with its tag, its text ([None]
    for an element without text) and its child elements. *)
#[warnings="-register-all"]
Inductive Element :=
| Elem (tag : string) (text : option string) (children : list Element).

Definition elem_tag (e : Element) : string :=
  match e with Elem t _ _ => t end.

Definition elem_text (e : Element) : option string :=
  match e with Elem _ t _ => t end.

Definition elem_children (e : Element) : list Element :=
  match e with Elem _ _ c => c end.

(** [Element.find(tag)]: the first direct child with that tag. *)
Definition elem_find (tag : string) (e : Element) : option Element :=
  List.find (fun c => String.eqb (elem_tag c) tag) (elem_children e).

(** ** Events seen by the engine and by the downstream tool *)

Inductive EngineMessageType := msg_info | msg_error.

Inductive event :=
| ev_output_message (tool : Z) (sev : EngineMessageType) (msg : string)
| ev_output_tool_progress (tool : Z) (pct : Q)
| ev_get_output_anchor (name : string)
| ev_anchor_init (info : RecordInfo)
| ev_anchor_push_record (r : RecordRef) (accepted : bool)
| ev_anchor_update_progress (pct : Q)
| ev_anchor_output_record_count (final : bool)
| ev_anchor_close
| ev_anchor_assert_close.

(** ** Plugin state *)

(** [Sdk.RecordCreator]: the output layout and the record being built. *)
Record RecordCreator := mkCreator {
  rc_info : RecordInfo;
  rc_buf : RecordRef
}.

(** [Sdk.RecordCopier]: destination and source layouts and the
    (destination, source) index pairs added so far. *)
Record RecordCopier := mkCopier {
  cp_dst : RecordInfo;
  cp_src : RecordInfo;
  cp_map : list (nat * nat);
  cp_done : bool
}.

(** The attributes of the [AyxPlugin] instance and of its one
    [IncomingInterface], and the log of events.  An attribute that Python
    creates on first assignment is an [option] that starts at [None];
    [field_selection] holds the element text, which may itself be [None]. *)
Record Plugin := mkPlugin {
  n_tool_id : Z;
  Sentiment_score : attr;
  Negative_Score : attr;
  Neutral_Score : attr;
  Positive_Score : attr;
  Compound_Score : attr;
  field_selection : option (option string);
  output_anchor : option string;
  input_field : option FieldObj;
  record_copier : option RecordCopier;
  record_creator : option RecordCreator;
  events : list event
}.

(** [self.data_type], [self.data_size], [self.data_type_double]: set once in
    the constructor (lines 35, 36, 38) and never assigned again. *)
Definition data_type : FieldType := v_wstring.
Definition data_size : nat := 100.
Definition data_type_double : FieldType := double.

(** ** Exceptions and the callback monad *)

Inductive exn :=
| AttributeError (owner name : string)
| UnboundLocalError (var : string)
| TypeError (what : string)
| IndexError (what : string)
| SdkError (what : string).

Inductive outcome (A : Type) :=
| Ret (a : A)
| Raise (e : exn).
Arguments Ret {A} a.
Arguments Raise {A} e.

Definition M (A : Type) : Type := Plugin -> outcome A * Plugin.

Definition ret {A} (a : A) : M A := fun p => (Ret a, p).
Definition raise {A} (e : exn) : M A := fun p => (Raise e, p).
Definition bind {A B} (m : M A) (k : A -> M B) : M B :=
  fun p => match m p with
           | (Ret a, p') => k a p'
           | (Raise e, p') => (Raise e, p')
           end.

Declare Scope py_scope.
Delimit Scope py_scope with py.
Notation "x <- m ;; k" := (bind m (fun x => k))
  (at level 100, m at next level, right associativity) : py_scope.
Notation "m ;; k" := (bind m (fun _ => k))
  (at level 100, right associativity) : py_scope.
Local Open Scope py_scope.

Definition get {A} (f : Plugin -> A) : M A := fun p => (Ret (f p), p).
Definition modify (f : Plugin -> Plugin) : M unit := fun p => (Ret tt, f p).

(** Reading an attribute that may not have been created yet. *)
Definition getattr {A} (owner name : string) (f : Plugin -> option A) : M A :=
  fun p => match f p with
           | Some a => (Ret a, p)
           | None => (Raise (AttributeError owner name), p)
           end.

Definition emit (e : event) : M unit :=
  modify (fun p =>
    mkPlugin (n_tool_id p) (Sentiment_score p) (Negative_Score p)
      (Neutral_Score p) (Positive_Score p) (Compound_Score p)
      (field_selection p) (output_anchor p) (input_field p)
      (record_copier p) (record_creator p) (events p ++ [e])).

Definition set_field_selection (v : option string) : M unit :=
  modify (fun p =>
    mkPlugin (n_tool_id p) (Sentiment_score p) (Negative_Score p)
      (Neutral_Score p) (Positive_Score p) (Compound_Score p)
      (Some v) (output_anchor p) (input_field p)
      (record_copier p) (record_creator p) (events p)).

Definition set_output_anchor (a : string) : M unit :=
  modify (fun p =>
    mkPlugin (n_tool_id p) (Sentiment_score p) (Negative_Score p)
      (Neutral_Score p) (Positive_Score p) (Compound_Score p)
      (field_selection p) (Some a) (input_field p)
      (record_copier p) (record_creator p) (events p)).

Definition set_input_field (f : FieldObj) : M unit :=
  modify (fun p =>
    mkPlugin (n_tool_id p) (Sentiment_score p) (Negative_Score p)
      (Neutral_Score p) (Positive_Score p) (Compound_Score p)
      (field_selection p) (output_anchor p) (Some f)
      (record_copier p) (record_creator p) (events p)).

Definition new_IncomingInterface : M unit :=
  modify (fun p =>
    mkPlugin (n_tool_id p) (Sentiment_score p) (Negative_Score p)
      (Neutral_Score p) (Positive_Score p) (Compound_Score p)
      (field_selection p) (output_anchor p) (input_field p)
      None None (events p)).

Definition set_record_creator (c : RecordCreator) : M unit :=
  modify (fun p =>
    mkPlugin (n_tool_id p) (Sentiment_score p) (Negative_Score p)
      (Neutral_Score p) (Positive_Score p) (Compound_Score p)
      (field_selection p) (output_anchor p) (input_field p)
      (record_copier p) (Some c) (events p)).

Definition set_record_copier (c : RecordCopier) : M unit :=
  modify (fun p =>
    mkPlugin (n_tool_id p) (Sentiment_score p) (Negative_Score p)
      (Neutral_Score p) (Positive_Score p) (Compound_Score p)
      (field_selection p) (output_anchor p) (input_field p)
      (Some c) (record_creator p) (events p)).

Definition set_Sentiment_score (a : attr) : M unit :=
  modify (fun p =>
    mkPlugin (n_tool_id p) a (Negative_Score p)
      (Neutral_Score p) (Positive_Score p) (Compound_Score p)
      (field_selection p) (output_anchor p) (input_field p)
      (record_copier p) (record_creator p) (events p)).

Definition set_Negative_Score (a : attr) : M unit :=
  modify (fun p =>
    mkPlugin (n_tool_id p) (Sentiment_score p) a
      (Neutral_Score p) (Positive_Score p) (Compound_Score p)
      (field_selection p) (output_anchor p) (input_field p)
      (record_copier p) (record_creator p) (events p)).

Definition set_Neutral_Score (a : attr) : M unit :=
  modify (fun p =>
    mkPlugin (n_tool_id p) (Sentiment_score p) (Negative_Score p)
      a (Positive_Score p) (Compound_Score p)
      (field_selection p) (output_anchor p) (input_field p)
      (record_copier p) (record_creator p) (events p)).

Definition set_Positive_Score (a : attr) : M unit :=
  modify (fun p =>
    mkPlugin (n_tool_id p) (Sentiment_score p) (Negative_Score p)
      (Neutral_Score p) a (Compound_Score p)
      (field_selection p) (output_anchor p) (input_field p)
      (record_copier p) (record_creator p) (events p)).

Definition set_Compound_Score (a : attr) : M unit :=
  modify (fun p =>
    mkPlugin (n_tool_id p) (Sentiment_score p) (Negative_Score p)
      (Neutral_Score p) (Positive_Score p) a
      (field_selection p) (output_anchor p) (input_field p)
      (record_copier p) (record_creator p) (events p)).

(** ** AyxPlugin *)

(** [AyxPlugin.__init__] (lines 19-41). *)
Definition AyxPlugin_init (tool : Z) : Plugin :=
  {| n_tool_id := tool;
     Sentiment_score := AName "Sentiment_Output";
     Negative_Score := AName "Negative_Score";
     Neutral_Score := AName "Neutral_Score";
     Positive_Score := AName "Positive_Score";
     Compound_Score := AName "Compound_Score";
     field_selection := None;
     output_anchor := None;
     input_field := None;
     record_copier := None;
     record_creator := None;
     events := [] |}.

(** [alteryx_engine.output_message(self.n_tool_id, severity, text)]. *)
Definition output_message (sev : EngineMessageType) (msg : string) : M unit :=
  tool <- get n_tool_id ;;
  emit (ev_output_message tool sev msg).

(** [pi_init] (lines 43-57); [xml] is the document [Et.fromstring(str_xml)]
    evaluates to. *)
Definition pi_init (xml : Element) : M unit :=
  (match elem_find "FieldSelect" xml with
   | Some e => set_field_selection (elem_text e)
   | None => output_message msg_error "Please select field to analyze"
   end) ;;
  emit (ev_get_output_anchor "Output") ;;
  set_output_anchor "Output".

(** [pi_add_incoming_connection] (lines 60-70): a new [IncomingInterface]
    whose copier and creator are [None]. *)
Definition pi_add_incoming_connection (str_type str_name : string) : M unit :=
  new_IncomingInterface.

(** [pi_add_outgoing_connection] (lines 72-79). *)
Definition pi_add_outgoing_connection (str_name : string) : M bool :=
  ret true.

(** The names an [AyxPlugin] instance answers to: the methods the class
    defines (lines 19-96) and the attributes its methods assign. *)
Definition AyxPlugin_names : list string :=
  ["__init__"; "pi_init"; "pi_add_incoming_connection";
   "pi_add_outgoing_connection"; "pi_push_all_records"; "pi_close";
   "n_tool_id"; "alteryx_engine"; "output_anchor_mgr"; "Sentiment_score";
   "data_type"; "data_size"; "Negative_Score"; "data_type_double";
   "Neutral_Score"; "Positive_Score"; "Compound_Score"; "field_selection";
   "output_anchor"; "single_input"; "input_field"].

(** [self.name]: an [AttributeError] for a name the instance does not
    have. *)
Definition self_lookup (name : string) : M unit :=
  if existsb (String.eqb name) AyxPlugin_names then ret tt
  else raise (AttributeError "AyxPlugin" name).

(** [pi_push_all_records] (lines 80-88).  The arguments of [output_message]
    are evaluated before the call; the third one is [self.xmsg(text)], a
    helper that in the SDK's examples returns its argument. *)
Definition pi_push_all_records (n_record_limit : Z) : M bool :=
  _tool <- get n_tool_id ;;
  self_lookup "xmsg" ;;
  output_message msg_error "Missing Incoming Connection" ;;
  ret false.

(** [pi_close] (lines 90-96). *)
Definition pi_close (b_has_errors : bool) : M unit :=
  _a <- getattr "AyxPlugin" "output_anchor" output_anchor ;;
  emit ev_anchor_assert_close.

(** ** Text of numbers *)

(** [repr(x)] of a float in positional notation, such as [0.323] or
    [-0.6369]. *)
Definition repr_float (d : Dec) : string :=
  (if dneg d then "-" else "") +:+
  NilEmpty.string_of_uint (dint d) +:+ "." +:+ NilEmpty.string_of_uint (dfrac d).

(** Python prints at least one digit on each side of the point. *)
Definition wf_dec (d : Dec) : bool :=
  match dint d, dfrac d with
  | Nil, _ | _, Nil => false
  | _, _ => true
  end.

(** The text before the first point, and the text after it when there is
    a point. *)
Fixpoint split_point (s : string) : string * option string :=
  match s with
  | EmptyString => (EmptyString, None)
  | String c s' =>
      if Ascii.eqb c "." then (EmptyString, Some s')
      else let '(a, b) := split_point s' in (String c a, b)
  end.

(** Reading a number from text, as [set_from_string] does for a [double]
    field: an optional sign, digits, and optionally a point and digits. *)
Definition parse_float (s : string) : option Dec :=
  let '(neg, body) :=
    match s with
    | String "-" s' => (true, s')
    | String "+" s' => (false, s')
    | _ => (false, s)
    end in
  let '(a, b) := split_point body in
  match NilEmpty.uint_of_string a,
        NilEmpty.uint_of_string (default EmptyString b) with
  | Some Nil, Some Nil => None
  | Some i, Some f => Some (mkDec neg i f)
  | _, _ => None
  end.

Definition parse_int (s : string) : option Z :=
  match s with
  | String "+" s' => Z.of_int <$> NilZero.int_of_string s'
  | _ => Z.of_int <$> NilZero.int_of_string s
  end.

(** ** Regular expressions: sequences of quantified character classes *)

(** Enough of [re] for the plugin's pattern: a pattern is a sequence of
    character classes, each with a quantifier.  Matching is Python's:
    quantifiers are greedy, and the matcher backtracks to the next shorter
    repetition when the rest of the pattern fails. *)
Inductive quant := q_one | q_opt | q_star | q_plus.

Definition item : Type := (ascii -> bool) * quant.

(** Greedy repetition of a class, then the continuation [k]; gives back one
    character at a time until [k] succeeds. *)
Fixpoint greedy (cls : ascii -> bool) (k : string -> option string)
    (s : string) : option string :=
  match s with
  | String c s' =>
      if cls c then
        match greedy cls k s' with
        | Some r => Some r
        | None => k s
        end
      else k s
  | EmptyString => k s
  end.

(** [match_here p s]: the text left after the first way [p] matches a prefix
    of [s], if there is one. *)
Fixpoint match_here (p : list item) (s : string) : option string :=
  match p with
  | [] => Some s
  | (cls, q) :: p' =>
      let k := match_here p' in
      match q with
      | q_one =>
          match s with
          | String c s' => if cls c then k s' else None
          | EmptyString => None
          end
      | q_opt =>
          match s with
          | String c s' =>
              if cls c then
                match k s' with
                | Some r => Some r
                | None => k s
                end
              else k s
          | EmptyString => k s
          end
      | q_star => greedy cls k s
      | q_plus =>
          match s with
          | String c s' => if cls c then greedy cls k s' else None
          | EmptyString => None
          end
      end
  end.

(** [re.findall]: scan left to right; a match is recorded and the scan
    resumes where it ended (one character further after an empty match); a
    position without a match is skipped. *)
Fixpoint findall_from (fuel : nat) (p : list item) (s : string) : list string :=
  match fuel with
  | O => []
  | S fuel' =>
      match match_here p s with
      | Some rest =>
          let n := (String.length s - String.length rest)%nat in
          substring 0 n s ::
            match n, s with
            | _, EmptyString => []
            | O, String _ s' => findall_from fuel' p s'
            | S _, _ => findall_from fuel' p rest
            end
      | None =>
          match s with
          | EmptyString => []
          | String _ s' => findall_from fuel' p s'
          end
      end
  end.

Definition findall (p : list item) (s : string) : list string :=
  findall_from (S (String.length s)) p s.

Definition is_sign (c : ascii) : bool :=
  Ascii.eqb c "-" || Ascii.eqb c "+".

Definition is_digit (c : ascii) : bool :=
  let n := nat_of_ascii c in (48 <=? n)%nat && (n <=? 57)%nat.

Definition is_point (c : ascii) : bool := Ascii.eqb c ".".

Arguments is_sign : simpl never.
Arguments is_digit : simpl never.
Arguments is_point : simpl never.

(** The pattern of line 189: an optional sign, digits, points, and at least
    one digit. *)
Definition number_pattern : list item :=
  [(is_sign, q_opt); (is_digit, q_star); (is_point, q_star); (is_digit, q_plus)].

(** ** The analyzer's result *)

(** The dictionary [polarity_scores] returns, in the order of its keys. *)
Record Scores := mkScores {
  neg : Dec;
  neu : Dec;
  pos : Dec;
  compound : Dec
}.

(** [str(snt)] of that dictionary. *)
Definition str_scores (snt : Scores) : string :=
  "{'neg': " +:+ repr_float (neg snt) +:+
  ", 'neu': " +:+ repr_float (neu snt) +:+
  ", 'pos': " +:+ repr_float (pos snt) +:+
  ", 'compound': " +:+ repr_float (compound snt) +:+ "}".

Definition wf_scores (snt : Scores) : bool :=
  wf_dec (neg snt) && wf_dec (neu snt) && wf_dec (pos snt) &&
  wf_dec (compound snt).

(** ** SDK operations on layouts, records, creator and copier *)

(** [RecordInfo.clone]. *)
Definition clone (info : RecordInfo) : RecordInfo := info.

(** [RecordInfo.add_field(name, type, size=0)]: one more field at the end. *)
Definition add_field (name : string) (ty : FieldType) (size : nat)
    (info : RecordInfo) : RecordInfo :=
  info ++ [mkField name ty size].

Definition num_fields (info : RecordInfo) : nat := length info.

(** [RecordInfo.get_field_num(name)]: the position of the first field with
    that name; [None] stands for the error the SDK throws when there is no
    such field. *)
Fixpoint get_field_num (name : string) (info : RecordInfo) : option nat :=
  match info with
  | [] => None
  | f :: info' =>
      if String.eqb (field_name f) name then Some O
      else S <$> get_field_num name info'
  end.

(** [record_info[i]]. *)
Definition field_at (info : RecordInfo) (i : nat) : option FieldObj :=
  mkFieldObj i <$> info !! i.

(** [construct_record_creator] and [RecordCreator.reset]: every field
    null. *)
Definition construct_record_creator (info : RecordInfo) : RecordCreator :=
  mkCreator info (replicate (length info) VNull).

Definition creator_reset (c : RecordCreator) : RecordCreator :=
  mkCreator (rc_info c) (replicate (length (rc_info c)) VNull).

(** [RecordCreator.finalize_record]: the record built so far. *)
Definition finalize_record (c : RecordCreator) : RecordRef := rc_buf c.

(** [Sdk.RecordCopier(dst, src)], [add(dst_index, src_index)] and
    [done_adding]. *)
Definition RecordCopier_new (dst src : RecordInfo) : RecordCopier :=
  mkCopier dst src [] false.

Definition copier_add (d s : nat) (c : RecordCopier) : RecordCopier :=
  mkCopier (cp_dst c) (cp_src c) (cp_map c ++ [(d, s)]) (cp_done c).

Definition copier_done_adding (c : RecordCopier) : RecordCopier :=
  mkCopier (cp_dst c) (cp_src c) (cp_map c) true.

(** [RecordCopier.copy(creator, in_record)]: each mapped source value goes
    to its destination position.  A pair whose source position is not in the
    record copies nothing. *)
Definition copy_pair (in_record : RecordRef) (buf : RecordRef)
    (ds : nat * nat) : RecordRef :=
  match in_record !! ds.2 with
  | Some v => <[ds.1 := v]> buf
  | None => buf
  end.

Definition copier_copy (cp : RecordCopier) (c : RecordCreator)
    (in_record : RecordRef) : RecordCreator :=
  mkCreator (rc_info c) (foldl (copy_pair in_record) (rc_buf c) (cp_map cp)).

Definition value_as_string (v : value) : option string :=
  match v with
  | VNull => None
  | VInt z => Some (NilZero.string_of_int (Z.to_int z))
  | VDouble d => Some (repr_float d)
  | VStr s => Some s
  end.

(** [Field.get_as_string(record)]: [None] for a null value (and for a
    position the record does not have). *)
Definition get_as_string (f : FieldObj) (r : RecordRef) : option string :=
  r !! fo_pos f ≫= value_as_string.

(** The value [set_from_string] stores for a field of the given type: text
    cut to the field's size for the string types, the number read from the
    text for the numeric ones (null when the text is not a number). *)
Definition value_from_string (f : Field) (s : string) : value :=
  match field_type f with
  | v_string | v_wstring => VStr (substring 0 (field_size f) s)
  | double => from_option VDouble VNull (parse_float s)
  | int64 => from_option VInt VNull (parse_int s)
  end.

(** [Field.set_from_string(creator, text)]. *)
Definition set_from_string (f : FieldObj) (s : string)
    (c : RecordCreator) : RecordCreator :=
  mkCreator (rc_info c) (<[fo_pos f := value_from_string (fo_field f) s]> (rc_buf c)).

(** ** IncomingInterface *)

Section Adapter.

(** [SentimentIntensityAnalyzer().polarity_scores]: a pure function of the
    text. *)
Variable polarity_scores : string -> Scores.

(** The downstream tool's answer to [output_anchor.push_record], which may
    depend on everything it has been sent so far. *)
Variable push_accepts : list event -> RecordRef -> bool.

(** An SDK argument that has to be a [str]. *)
Definition as_field_name (a : attr) : M string :=
  match a with
  | AName s => ret s
  | AField _ => raise (TypeError "field name is not a str")
  end.

(** The receiver of [set_from_string] has to be a field object. *)
Definition as_field_obj (a : attr) : M FieldObj :=
  match a with
  | AField f => ret f
  | AName _ => raise (AttributeError "str" "set_from_string")
  end.

(** [record_info[record_info.get_field_num(name)]]. *)
Definition lookup_field (name : string) (info : RecordInfo) : M FieldObj :=
  match get_field_num name info with
  | None => raise (SdkError "field not found")
  | Some i =>
      match field_at info i with
      | Some f => ret f
      | None => raise (IndexError "record_info")
      end
  end.

(** [record_info_out[record_info_out.get_field_num(self.parent.X)]] for one
    of the five attributes. *)
Definition resolve (a : Plugin -> attr) (info : RecordInfo) : M FieldObj :=
  n <- (x <- get a ;; as_field_name x) ;;
  lookup_field n info.

(** [ii_init] (lines 119-167). *)
Definition ii_init (record_info_in : RecordInfo) : M bool :=
  let record_info_out := clone record_info_in in
  n <- (x <- get Sentiment_score ;; as_field_name x) ;;
  let record_info_out := add_field n data_type data_size record_info_out in
  n <- (x <- get Negative_Score ;; as_field_name x) ;;
  let record_info_out := add_field n data_type_double 0 record_info_out in
  n <- (x <- get Neutral_Score ;; as_field_name x) ;;
  let record_info_out := add_field n data_type_double 0 record_info_out in
  n <- (x <- get Positive_Score ;; as_field_name x) ;;
  let record_info_out := add_field n data_type_double 0 record_info_out in
  n <- (x <- get Compound_Score ;; as_field_name x) ;;
  let record_info_out := add_field n data_type_double 0 record_info_out in
  _anchor <- getattr "AyxPlugin" "output_anchor" output_anchor ;;
  emit (ev_anchor_init record_info_out) ;;
  set_record_creator (construct_record_creator record_info_out) ;;
  set_record_copier
    (copier_done_adding
       (foldl (fun c index => copier_add index index c)
          (RecordCopier_new record_info_out record_info_in)
          (seq 0 (num_fields record_info_in)))) ;;
  f <- resolve Sentiment_score record_info_out ;;
  set_Sentiment_score (AField f) ;;
  f <- resolve Negative_Score record_info_out ;;
  set_Negative_Score (AField f) ;;
  f <- resolve Neutral_Score record_info_out ;;
  set_Neutral_Score (AField f) ;;
  f <- resolve Positive_Score record_info_out ;;
  set_Positive_Score (AField f) ;;
  f <- resolve Compound_Score record_info_out ;;
  set_Compound_Score (AField f) ;;
  sel <- getattr "AyxPlugin" "field_selection" field_selection ;;
  name <- match sel with
          | Some s => ret s
          | None => raise (TypeError "field name is not a str")
          end ;;
  f <- lookup_field name record_info_out ;;
  set_input_field f ;;
  ret true.

(** A method call on [self.record_creator], which is [None] until
    [ii_init] has run. *)
Definition on_creator (meth : string)
    (f : RecordCreator -> RecordCreator) : M unit :=
  c <- getattr "NoneType" meth record_creator ;;
  set_record_creator (f c).

(** [self.parent.X.set_from_string(self.record_creator, text)]. *)
Definition store (a : Plugin -> attr) (text : string) : M unit :=
  f <- (x <- get a ;; as_field_obj x) ;;
  c <- getattr "NoneType" "set_from_string" record_creator ;;
  set_record_creator (set_from_string f text c).

(** [values[i]]. *)
Definition index (values : list string) (i : nat) : M string :=
  match values !! i with
  | Some v => ret v
  | None => raise (IndexError "values")
  end.

(** [output_anchor.push_record(out_record)]. *)
Definition anchor_push_record (r : RecordRef) : M bool :=
  log <- get events ;;
  let accepted := push_accepts log r in
  emit (ev_anchor_push_record r accepted) ;;
  ret accepted.

(** [ii_push_record] (lines 169-207).  The local [out_record] is bound only
    inside the branch for a non-null text; [None] is the unbound local. *)
Definition ii_push_record (in_record : RecordRef) : M bool :=
  on_creator "reset" creator_reset ;;
  cp <- getattr "NoneType" "copy" record_copier ;;
  on_creator "copy" (fun c => copier_copy cp c in_record) ;;
  fld <- getattr "AyxPlugin" "input_field" input_field ;;
  out_record <-
    match get_as_string fld in_record with
    | Some sentence =>
        let snt := polarity_scores sentence in
        let output := str_scores snt in
        let values := findall number_pattern output in
        negative <- index values 0 ;;
        neutral <- index values 1 ;;
        positive <- index values 2 ;;
        compound <- index values 3 ;;
        store Sentiment_score output ;;
        store Negative_Score negative ;;
        store Neutral_Score neutral ;;
        store Positive_Score positive ;;
        store Compound_Score compound ;;
        c <- getattr "NoneType" "finalize_record" record_creator ;;
        ret (Some (finalize_record c))
    | None => ret None
    end ;;
  _anchor <- getattr "AyxPlugin" "output_anchor" output_anchor ;;
  r <- match out_record with
       | Some r => ret r
       | None => raise (UnboundLocalError "out_record")
       end ;;
  accepted <- anchor_push_record r ;;
  if negb accepted then ret false else ret true.

(** [ii_update_progress] (lines 208-215). *)
Definition ii_update_progress (d_percent : Q) : M unit :=
  tool <- get n_tool_id ;;
  emit (ev_output_tool_progress tool d_percent) ;;
  _anchor <- getattr "AyxPlugin" "output_anchor" output_anchor ;;
  emit (ev_anchor_update_progress d_percent).

(** [ii_close] (lines 217-223). *)
Definition ii_close : M unit :=
  _anchor <- getattr "AyxPlugin" "output_anchor" output_anchor ;;
  emit (ev_anchor_output_record_count true) ;;
  emit ev_anchor_close.

(** ** The engine's side of a stream *)

(** The engine delivers the rows one call at a time and stops at the first
    call that returns [False] (or raises). *)
Fixpoint push_records (rows : list RecordRef) : M bool :=
  match rows with
  | [] => ret true
  | r :: rows' =>
      ok <- ii_push_record r ;;
      if ok then push_records rows' else ret false
  end.

(** Configuration, connection, layout, rows: the calls of one stream, in
    the engine's order. *)
Definition run_stream (xml : Element) (info : RecordInfo)
    (rows : list RecordRef) : M bool :=
  pi_init xml ;;
  pi_add_incoming_connection "Input" "" ;;
  ok <- ii_init info ;;
  if ok then push_records rows else ret false.

End Adapter.

(** The rows pushed downstream, in order. *)
Definition pushed (log : list event) : list RecordRef :=
  omap (fun e => match e with
                 | ev_anchor_push_record r _ => Some r
                 | _ => None
                 end) log.

(** The layouts published downstream. *)
Definition published (log : list event) : list RecordInfo :=
  omap (fun e => match e with
                 | ev_anchor_init info => Some info
                 | _ => None
                 end) log.

(** The messages shown to the user. *)
Definition messages (log : list event) : list (EngineMessageType * string) :=
  omap (fun e => match e with
                 | ev_output_message _ sev msg => Some (sev, msg)
                 | _ => None
                 end) log.

(** The five fields [ii_init] appends, and the layout it publishes. *)
Definition new_fields : RecordInfo :=
  [mkField "Sentiment_Output" v_wstring 100;
   mkField "Negative_Score" double 0;
   mkField "Neutral_Score" double 0;
   mkField "Positive_Score" double 0;
   mkField "Compound_Score" double 0].

Definition output_schema (info : RecordInfo) : RecordInfo := info ++ new_fields.

Definition is_new_name (s : string) : bool :=
  existsb (fun f => String.eqb (field_name f) s) new_fields.

(** No field of the incoming layout already has one of the five names. *)
Definition names_free (info : RecordInfo) : bool :=
  forallb (fun f => negb (is_new_name (field_name f))) info.

(** * Vocabulary of the statements *)

(** Every character of the text is in the class. *)
Fixpoint string_forall (P : ascii -> bool) (s : string) : bool :=
  match s with
  | EmptyString => true
  | String c s' => P c && string_forall P s'
  end.

(** The text does not go on with a character of the class. *)
Definition stops (P : ascii -> bool) (s : string) : bool :=
  match s with
  | EmptyString => true
  | String c _ => negb (P c)
  end.

(** The index pairs the loop of lines 148-150 adds: [(0, 0)] up to
    [(n - 1, n - 1)]. *)
Definition diagonal (n : nat) : list (nat * nat) :=
  map (fun i => (i, i)) (seq 0 n).

(** The five attributes still hold the names the constructor gave them. *)
Definition fresh (p : Plugin) : Prop :=
  Sentiment_score p = AName "Sentiment_Output" /\
  Negative_Score p = AName "Negative_Score" /\
  Neutral_Score p = AName "Neutral_Score" /\
  Positive_Score p = AName "Positive_Score" /\
  Compound_Score p = AName "Compound_Score".

(** The state when line 162 has run: layout published, creator and copier
    in place, the five attributes rebound to field objects. *)
Definition negotiated (info : RecordInfo) (p : Plugin)
    (f1 f2 f3 f4 f5 : FieldObj) : Plugin :=
  mkPlugin (n_tool_id p) (AField f1) (AField f2) (AField f3) (AField f4)
    (AField f5) (field_selection p) (output_anchor p) (input_field p)
    (Some (mkCopier (output_schema info) info (diagonal (length info)) true))
    (Some (construct_record_creator (output_schema info)))
    (events p ++ [ev_anchor_init (output_schema info)]).

(** Line 165. *)
Definition resolve_input (info : RecordInfo) : M bool :=
  (sel <- getattr "AyxPlugin" "field_selection" field_selection ;;
   name <- match sel with
           | Some s => ret s
           | None => raise (TypeError "field name is not a str")
           end ;;
   f <- lookup_field name (output_schema info) ;;
   set_input_field f ;;
   ret true)%py.

(** [f] is the field object found under the name [n] in the published
    layout. *)
Definition resolved_in (info : RecordInfo) (n : string) (f : FieldObj) : Prop :=
  get_field_num n (output_schema info) = Some (fo_pos f) /\
  field_at (output_schema info) (fo_pos f) = Some f /\
  field_name (fo_field f) = n.

(** The state in which the engine calls [ii_init]: constructed, configured,
    with its incoming connection. *)
Definition configured (tool : Z) (xml : Element) : Plugin :=
  snd ((pi_init xml ;; pi_add_incoming_connection "Input" "")%py
         (AyxPlugin_init tool)).

(** What a row delivery leaves alone: everything but the record under
    construction and the log. *)
Definition same_wiring (p p' : Plugin) : Prop :=
  n_tool_id p' = n_tool_id p /\
  Sentiment_score p' = Sentiment_score p /\
  Negative_Score p' = Negative_Score p /\
  Neutral_Score p' = Neutral_Score p /\
  Positive_Score p' = Positive_Score p /\
  Compound_Score p' = Compound_Score p /\
  field_selection p' = field_selection p /\
  output_anchor p' = output_anchor p /\
  input_field p' = input_field p /\
  record_copier p' = record_copier p /\
  rc_info <$> record_creator p' = rc_info <$> record_creator p.

(** A computation that leaves the wiring alone, and one that logs
    nothing. *)
Definition keeps {A} (m : M A) : Prop := forall p, same_wiring p (snd (m p)).

Definition quiet {A} (m : M A) : Prop := forall p, events (snd (m p)) = events p.

(** The state between two deliveries of a negotiated stream whose incoming
    layout does not use the five names. *)
Definition ready (info : RecordInfo) (p : Plugin) : Prop :=
  (forall k f, new_fields !! k = Some f ->
     nth k [Sentiment_score p; Negative_Score p; Neutral_Score p;
            Positive_Score p; Compound_Score p] (AName "") =
     AField (mkFieldObj (length info + k) f)) /\
  is_Some (output_anchor p) /\
  is_Some (input_field p) /\
  record_copier p =
    Some (mkCopier (output_schema info) info (diagonal (length info)) true) /\
  rc_info <$> record_creator p = Some (output_schema info).

(** The values written into the five new fields. *)
Definition sentiment_values (snt : Scores) : list value :=
  [VStr (substring 0 data_size (str_scores snt));
   VDouble (neg snt); VDouble (neu snt); VDouble (pos snt);
   VDouble (compound snt)].

(** The state with [buf] as the record under construction. *)
Definition with_record (info : RecordInfo) (buf : RecordRef) (p : Plugin) : Plugin :=
  mkPlugin (n_tool_id p) (Sentiment_score p) (Negative_Score p)
    (Neutral_Score p) (Positive_Score p) (Compound_Score p)
    (field_selection p) (output_anchor p) (input_field p)
    (record_copier p) (Some (mkCreator (output_schema info) buf)) (events p).

(** Two states that differ at most in the tool id and in the log, and have
    pushed the same records so far. *)
Definition agree (p q : Plugin) : Prop :=
  Sentiment_score p = Sentiment_score q /\
  Negative_Score p = Negative_Score q /\
  Neutral_Score p = Neutral_Score q /\
  Positive_Score p = Positive_Score q /\
  Compound_Score p = Compound_Score q /\
  field_selection p = field_selection q /\
  output_anchor p = output_anchor q /\
  input_field p = input_field q /\
  record_copier p = record_copier q /\
  record_creator p = record_creator q /\
  pushed (events p) = pushed (events q).

(** A computation that neither reads the tool id or the log nor pushes
    different records in agreeing states. *)
Definition blind {A} (m : M A) : Prop :=
  forall p q, agree p q ->
    fst (m p) = fst (m q) /\ agree (snd (m p)) (snd (m q)).

(** A projection of the state that agreeing states share. *)
Definition shared {A} (f : Plugin -> A) : Prop :=
  forall p q, agree p q -> f p = f q.

(** The objects a delivery needs are in place. *)
Definition wired (p : Plugin) : Prop :=
  is_Some (output_anchor p) /\ is_Some (record_copier p) /\
  is_Some (record_creator p).

(** The events a call has added to the log. *)
Definition logged_by (p p' : Plugin) : list event :=
  drop (length (events p)) (events p').

(** The two halves of [ii_push_record]. *)
Section Halves.

Variable polarity_scores : string -> Scores.
Variable push_accepts : list event -> RecordRef -> bool.

(** Lines 177-201: the output record, or [None] for the unbound local. *)
Definition build_record (in_record : RecordRef) : M (option RecordRef) :=
  (on_creator "reset" creator_reset ;;
   cp <- getattr "NoneType" "copy" record_copier ;;
   on_creator "copy" (fun c => copier_copy cp c in_record) ;;
   fld <- getattr "AyxPlugin" "input_field" input_field ;;
   match get_as_string fld in_record with
   | Some sentence =>
       let snt := polarity_scores sentence in
       let output := str_scores snt in
       let values := findall number_pattern output in
       negative <- index values 0 ;;
       neutral <- index values 1 ;;
       positive <- index values 2 ;;
       compound <- index values 3 ;;
       store Sentiment_score output ;;
       store Negative_Score negative ;;
       store Neutral_Score neutral ;;
       store Positive_Score positive ;;
       store Compound_Score compound ;;
       c <- getattr "NoneType" "finalize_record" record_creator ;;
       ret (Some (finalize_record c))
   | None => ret None
   end)%py.

(** Lines 203-207. *)
Definition push_out (out_record : option RecordRef) : M bool :=
  (_anchor <- getattr "AyxPlugin" "output_anchor" output_anchor ;;
   r <- match out_record with
        | Some r => ret r
        | None => raise (UnboundLocalError "out_record")
        end ;;
   accepted <- anchor_push_record push_accepts r ;;
   if negb accepted then ret false else ret true)%py.

End Halves.

(** * The engine's calls, one by one *)

(** A callback the engine can invoke, with its arguments. *)
Inductive call :=
| call_pi_init (xml : Element)
| call_pi_add_incoming_connection (str_type str_name : string)
| call_pi_add_outgoing_connection (str_name : string)
| call_pi_push_all_records (n_record_limit : Z)
| call_pi_close (b_has_errors : bool)
| call_ii_init (record_info_in : RecordInfo)
| call_ii_push_record (in_record : RecordRef)
| call_ii_update_progress (d_percent : Q)
| call_ii_close.

Section Engine.

Variable polarity_scores : string -> Scores.
Variable push_accepts : list event -> RecordRef -> bool.

(** The state a call leaves behind, whether it returned or raised. *)
Definition do_call (c : call) (p : Plugin) : Plugin :=
  match c with
  | call_pi_init xml => snd (pi_init xml p)
  | call_pi_add_incoming_connection t n =>
      snd (pi_add_incoming_connection t n p)
  | call_pi_add_outgoing_connection n =>
      snd (pi_add_outgoing_connection n p)
  | call_pi_push_all_records n => snd (pi_push_all_records n p)
  | call_pi_close b => snd (pi_close b p)
  | call_ii_init info => snd (ii_init info p)
  | call_ii_push_record r =>
      snd (ii_push_record polarity_scores push_accepts r p)
  | call_ii_update_progress q => snd (ii_update_progress q p)
  | call_ii_close => snd (ii_close p)
  end.

(** Any sequence of calls, in any order, going on after a call that
    raised. *)
Definition do_calls (cs : list call) (p : Plugin) : Plugin :=
  foldl (fun p c => do_call c p) p cs.

(** The end of a stream: [ii_close], then [pi_close]. *)
Definition close_stream (b_has_errors : bool) : M unit :=
  (ii_close ;; pi_close b_has_errors)%py.

End Engine.

Definition is_pi_init (c : call) : bool :=
  match c with
  | call_pi_init _ => true
  | _ => false
  end.

(** Reading a log from its start: the layout published last, as long as
    every record pushed so far had one value per field of the layout
    published last before it; [None] once a push breaks that. *)
Definition conform_step (st : option (option RecordInfo)) (e : event)
    : option (option RecordInfo) :=
  match st with
  | None => None
  | Some cur =>
      match e with
      | ev_anchor_init info => Some (Some info)
      | ev_anchor_push_record r _ =>
          match cur with
          | Some info => if (length r =? length info)%nat then Some cur else None
          | None => None
          end
      | _ => Some cur
      end
  end.

Definition conform (log : list event) : option (option RecordInfo) :=
  foldl conform_step (Some None) log.

(** The text of the field at position [i] of a row. *)
Definition row_text (i : nat) (row : RecordRef) : option string :=
  row !! i ≫= value_as_string.

(** The row followed by the sentiment values of its text. *)
Definition augmented (polarity_scores : string -> Scores) (i : nat)
    (row : RecordRef) : RecordRef :=
  match row_text i row with
  | Some sentence => row ++ sentiment_values (polarity_scores sentence)
  | None => row
  end.

(** A row of the incoming layout with a text at position [i] whose scores
    print as plain decimals. *)
Definition good_row (polarity_scores : string -> Scores) (info : RecordInfo)
    (i : nat) (row : RecordRef) : bool :=
  (length row =? length info)%nat &&
  match row_text i row with
  | Some sentence => wf_scores (polarity_scores sentence)
  | None => false
  end.


(** The log conforms so far, the creator (when there is one) builds records
    for the layout published last, and the record it holds has one value per
    field of that layout. *)
Definition arity_ok (p : Plugin) : Prop :=
  exists cur,
    conform (events p) = Some cur /\
    forall c, record_creator p = Some c ->
      cur = Some (rc_info c) /\ length (rc_buf c) = length (rc_info c).

Definition safe {A} (m : M A) : Prop :=
  forall p, arity_ok p -> arity_ok (snd (m p)).

(** A record that is returned is the one in the creator. *)
Definition returns_buffer (m : M (option RecordRef)) : Prop :=
  forall p r, fst (m p) = Ret (Some r) ->
    exists c, record_creator (snd (m p)) = Some c /\ rc_buf c = r.

(** Either the five attributes are still names and no layout has been
    published, or one layout has been published and the first attribute is
    a field object. *)
Definition once (p : Plugin) : Prop :=
  (fresh p /\ published (events p) = []) \/
  ((exists f, Sentiment_score p = AField f) /\
   length (published (events p)) = 1%nat).

(** A downstream tool that takes [k] records and refuses every record
    after them. *)
Definition accepts_first (k : nat) : list event -> RecordRef -> bool :=
  fun log _ => (length (pushed log) <? k)%nat.

(** * Example inputs *)

Definition ex_scores : Scores :=
  mkScores (mkDec false (D0 Nil) (D0 Nil))
           (mkDec false (D0 Nil) (D3 (D2 (D3 Nil))))
           (mkDec false (D0 Nil) (D6 (D7 (D7 Nil))))
           (mkDec false (D0 Nil) (D6 (D3 (D6 (D9 Nil))))).

Definition ex_analyzer : string -> Scores := fun _ => ex_scores.
Definition accept_all : list event -> RecordRef -> bool := fun _ _ => true.
Definition refuse_all : list event -> RecordRef -> bool := fun _ _ => false.

Definition ex_xml : Element :=
  Elem "Configuration" None [Elem "FieldSelect" (Some "comment") []].

Definition ex_info : RecordInfo :=
  [mkField "id" int64 8; mkField "comment" v_wstring 254].

Definition ex_row : RecordRef := [VInt 1; VStr "I love this product"].
Definition ex_null_row : RecordRef := [VInt 2; VNull].

Definition ex_comment : FieldObj := mkFieldObj 1 (mkField "comment" v_wstring 254).

(** The plugin after configuration and negotiation of the example stream,
    before its first row. *)
Definition ex_started (accepts : list event -> RecordRef -> bool) : Plugin :=
  snd (run_stream ex_analyzer accepts ex_xml ex_info [] (AyxPlugin_init 7)).

(** A configuration without the [FieldSelect] element, one whose element
    is empty, one that names a field the stream does not have, and one that
    names one of the five new fields. *)
Definition ex_xml_absent : Element := Elem "Configuration" None [].

Definition ex_xml_empty : Element :=
  Elem "Configuration" None [Elem "FieldSelect" None []].

Definition ex_xml_unknown : Element :=
  Elem "Configuration" None [Elem "FieldSelect" (Some "missing") []].

Definition ex_xml_new_name : Element :=
  Elem "Configuration" None [Elem "FieldSelect" (Some "Compound_Score") []].

(** Anything done with the output anchor. *)
Definition is_anchor_event (e : event) : bool :=
  match e with
  | ev_output_message _ _ _ | ev_output_tool_progress _ _ => false
  | _ => true
  end.

Definition anchor_activity (log : list event) : bool :=
  existsb is_anchor_event log.

(** Not configured yet: no output anchor, no record creator, and nothing
    done with the anchor so far. *)
Definition unconfigured (p : Plugin) : Prop :=
  output_anchor p = None /\ record_creator p = None /\
  anchor_activity (events p) = false.

(** More rows and call sequences for the examples. *)
Definition ex_rows : list RecordRef :=
  [ex_row; [VInt 2; VStr "Not great"]; [VInt 3; VStr ""]].

Definition ex_long_row : RecordRef := [VInt 5; VStr "x"; VInt 9].

Definition ex_calls_unconfigured : list call :=
  [call_pi_add_incoming_connection "Input" ""; call_ii_init ex_info;
   call_ii_push_record ex_row; call_ii_update_progress (1 # 2);
   call_ii_close; call_pi_close false; call_pi_push_all_records 0].

Definition ex_calls : list call :=
  [call_pi_init ex_xml; call_pi_add_incoming_connection "Input" "";
   call_ii_init ex_info; call_ii_push_record ex_row;
   call_ii_update_progress (1 # 2); call_ii_push_record ex_long_row].

(** * Strings *)

Section Strings.

Lemma append_assoc (a b c : string) : (a +:+ b) +:+ c = a +:+ b +:+ c.
Proof. induction a as [|x a IH]; simpl; [reflexivity | now rewrite IH]. Qed.

Lemma length_append (a b : string) :
  String.length (a +:+ b) = (String.length a + String.length b)%nat.
Proof. induction a as [|x a IH]; simpl; [reflexivity | now rewrite IH]. Qed.

Lemma substring_prefix (a b : string) :
  substring 0 (String.length a) (a +:+ b) = a.
Proof. induction a as [|x a IH]; simpl; [now destruct b | now rewrite IH]. Qed.

Lemma length_substring_le (n : nat) (s : string) :
  (String.length (substring 0 n s) <= n)%nat.
Proof.
  revert s; induction n as [|n IH]; intros [|c s]; simpl; try lia.
  specialize (IH s); lia.
Qed.

End Strings.

(** * Numbers in text *)

Section NumberText.

Lemma digits_of_uint (u : uint) :
  string_forall is_digit (NilEmpty.string_of_uint u) = true.
Proof. induction u; simpl; auto. Qed.

Lemma greedy_stops cls k t : stops cls t = true -> greedy cls k t = k t.
Proof.
  destruct t as [|c t]; simpl; [reflexivity|].
  now destruct (cls c).
Qed.

(** A run of the class is taken whole when the rest then matches. *)
Lemma greedy_run cls k u t r :
  string_forall cls u = true ->
  greedy cls k t = Some r ->
  greedy cls k (u +:+ t) = Some r.
Proof.
  intros Hu Ht; induction u as [|c u IH]; simpl in *; [exact Ht|].
  apply andb_prop in Hu as [Hc Hu].
  now rewrite Hc, (IH Hu).
Qed.

Lemma wf_dec_parts (d : Dec) :
  wf_dec d = true -> dint d <> Nil /\ dfrac d <> Nil.
Proof. unfold wf_dec; destruct (dint d), (dfrac d); simpl; intros; split; congruence. Qed.

(** Digits, a point, digits: the part of the pattern after the sign. *)
Lemma match_unsigned (I F rest : string) (x : ascii) :
  string_forall is_digit I = true ->
  string_forall is_digit (String x F) = true ->
  stops is_digit rest = true ->
  greedy is_digit (match_here [(is_point, q_star); (is_digit, q_plus)])
    (I +:+ "." +:+ String x F +:+ rest) = Some rest.
Proof.
  intros HI HF Hrest. apply greedy_run; [exact HI|].
  simpl in HF. apply andb_prop in HF as [Hx HF].
  assert (Hp : is_point x = false).
  { revert Hx. unfold is_digit, is_point.
    destruct (Ascii.eqb_spec x "."); [subst; simpl; discriminate | reflexivity]. }
  simpl. rewrite Hp, Hx.
  now rewrite (greedy_run is_digit (fun s => Some s) F rest rest HF
                 (greedy_stops _ _ _ Hrest)).
Qed.

Lemma digit_not_sign (x : ascii) : is_digit x = true -> is_sign x = false.
Proof.
  unfold is_digit, is_sign. intros H.
  destruct (Ascii.eqb_spec x "-"); [subst; simpl in H; discriminate|].
  destruct (Ascii.eqb_spec x "+"); [subst; simpl in H; discriminate|].
  reflexivity.
Qed.

(** The pattern matches exactly the printed number when the text after it
    does not go on with a digit. *)
Lemma match_number (d : Dec) (rest : string) :
  wf_dec d = true ->
  stops is_digit rest = true ->
  match_here number_pattern (repr_float d +:+ rest) = Some rest.
Proof.
  intros Hwf Hrest. apply wf_dec_parts in Hwf as [Hi Hf].
  unfold repr_float.
  pose proof (digits_of_uint (dint d)) as HI.
  pose proof (digits_of_uint (dfrac d)) as HF.
  destruct (NilEmpty.string_of_uint (dfrac d)) as [|x F] eqn:EF.
  { destruct (dfrac d); simpl in EF; congruence. }
  pose proof (match_unsigned _ _ rest _ HI HF Hrest) as Hbody.
  rewrite !append_assoc.
  destruct (dneg d).
  - simpl in Hbody |- *. now rewrite Hbody.
  - destruct (NilEmpty.string_of_uint (dint d)) as [|y I] eqn:EI.
    { destruct (dint d); simpl in EI; congruence. }
    simpl in HI. apply andb_prop in HI as [Hy HI'].
    simpl in Hbody |- *. rewrite (digit_not_sign _ Hy). exact Hbody.
Qed.

Lemma parse_float_repr (d : Dec) :
  wf_dec d = true -> parse_float (repr_float d) = Some d.
Proof.
  intros Hwf. apply wf_dec_parts in Hwf as [Hi Hf].
  assert (Hsplit : forall u t,
            split_point (NilEmpty.string_of_uint u +:+ "." +:+ t) =
            (NilEmpty.string_of_uint u, Some t)).
  { intros u t; induction u; simpl in *; [reflexivity|..]; now rewrite IHu. }
  assert (Hbody : forall neg,
            (let '(a, b) := split_point
                 (NilEmpty.string_of_uint (dint d) +:+ "." +:+
                  NilEmpty.string_of_uint (dfrac d)) in
             match NilEmpty.uint_of_string a,
                   NilEmpty.uint_of_string (default EmptyString b) with
             | Some Nil, Some Nil => None
             | Some i, Some f => Some (mkDec neg i f)
             | _, _ => None
             end) = Some (mkDec neg (dint d) (dfrac d))).
  { intros neg. rewrite Hsplit. simpl. rewrite !NilEmpty.usu.
    destruct (dint d); [congruence|..]; reflexivity. }
  destruct d as [n i f]; simpl in *. unfold parse_float, repr_float; simpl.
  destruct n; simpl.
  - apply Hbody.
  - destruct i; [congruence|..]; simpl; apply (Hbody false).
Qed.

Lemma repr_float_nonempty (d : Dec) : repr_float d <> "".
Proof.
  unfold repr_float. destruct (dneg d); simpl; [discriminate|].
  destruct (dint d); simpl; discriminate.
Qed.

Lemma greedy_shrinks cls (k : string -> option string) :
  (forall t r, k t = Some r -> (String.length r <= String.length t)%nat) ->
  forall s r, greedy cls k s = Some r ->
              (String.length r <= String.length s)%nat.
Proof.
  intros Hk s; induction s as [|c s IH]; intros r; simpl.
  - apply Hk.
  - destruct (cls c); [|apply Hk].
    destruct (greedy cls k s) as [r'|] eqn:E.
    + intros [= <-]. specialize (IH _ eq_refl). lia.
    + apply Hk.
Qed.

(** What is left after a match is a part of the text. *)
Lemma match_here_shrinks (p : list item) :
  forall s r, match_here p s = Some r ->
              (String.length r <= String.length s)%nat.
Proof.
  induction p as [|[cls q] p IH]; intros s r; simpl.
  - intros [= <-]; lia.
  - destruct q.
    + destruct s as [|c s]; [discriminate|]. destruct (cls c); [|discriminate].
      intros H; apply IH in H; simpl; lia.
    + destruct s as [|c s]; [apply IH|]. destruct (cls c); [|apply IH].
      destruct (match_here p s) as [r'|] eqn:E; [|apply IH].
      intros [= <-]. apply IH in E. simpl; lia.
    + apply greedy_shrinks, IH.
    + destruct s as [|c s]; [discriminate|]. destruct (cls c); [|discriminate].
      intros H. apply (greedy_shrinks _ _ IH) in H. simpl; lia.
Qed.

(** The scan does not depend on the fuel once there is more of it than
    text. *)
Lemma findall_from_fuel (p : list item) :
  forall f1 f2 s,
    (String.length s < f1)%nat -> (String.length s < f2)%nat ->
    findall_from f1 p s = findall_from f2 p s.
Proof.
  induction f1 as [|f1 IH]; intros f2 s H1 H2; [lia|].
  destruct f2 as [|f2]; [lia|]. simpl.
  destruct (match_here p s) as [rest|] eqn:E.
  - apply match_here_shrinks in E. f_equal.
    destruct (String.length s - String.length rest)%nat eqn:En;
      destruct s as [|c s]; simpl in *; try reflexivity; apply IH; lia.
  - destruct s as [|c s]; [reflexivity|]. simpl in *. apply IH; lia.
Qed.

Lemma findall_skip (p : list item) (c : ascii) (s : string) :
  match_here p (String c s) = None ->
  findall p (String c s) = findall p s.
Proof.
  intros H. unfold findall at 1. cbn [findall_from]. rewrite H.
  apply findall_from_fuel; simpl; lia.
Qed.

Lemma findall_take (p : list item) (a rest : string) :
  a <> "" ->
  match_here p (a +:+ rest) = Some rest ->
  findall p (a +:+ rest) = a :: findall p rest.
Proof.
  intros Ha H. unfold findall at 1. cbn [findall_from]. rewrite H.
  rewrite length_append.
  replace (String.length a + String.length rest - String.length rest)%nat
    with (String.length a) by lia.
  rewrite substring_prefix. f_equal.
  destruct a as [|x a]; [congruence|]. cbn [String.length String.append].
  apply findall_from_fuel; simpl; lia.
Qed.

Lemma no_number_at (c : ascii) (s : string) :
  is_sign c = false -> is_digit c = false -> is_point c = false ->
  match_here number_pattern (String c s) = None.
Proof. intros Hs Hd Hp. simpl. now rewrite Hs, Hd, Hp. Qed.

Arguments repr_float : simpl never.

(** The four numbers found in the text of the dictionary are the four
    scores as printed, in the order negative, neutral, positive,
    compound. *)
Lemma findall_str_scores (snt : Scores) :
  wf_scores snt = true ->
  findall number_pattern (str_scores snt) =
  [repr_float (neg snt); repr_float (neu snt); repr_float (pos snt);
   repr_float (compound snt)].
Proof.
  unfold wf_scores. intros H.
  apply andb_prop in H as [H H4]. apply andb_prop in H as [H H3].
  apply andb_prop in H as [H1 H2].
  unfold str_scores.
  repeat first
    [ rewrite findall_take by
        (first [apply repr_float_nonempty | now apply match_number])
    | progress (cbn [String.append]; rewrite findall_skip by
        (apply no_number_at; reflexivity)) ].
  reflexivity.
Qed.

End NumberText.

(** * Layouts, copier and creator *)

Section Layouts.

Lemma get_field_num_app (n : string) (a b : RecordInfo) :
  get_field_num n (a ++ b) =
  match get_field_num n a with
  | Some i => Some i
  | None => (fun i => length a + i)%nat <$> get_field_num n b
  end.
Proof.
  induction a as [|f a IH]; simpl.
  - now destruct (get_field_num n b).
  - destruct (String.eqb (field_name f) n); [reflexivity|].
    rewrite IH. destruct (get_field_num n a); [reflexivity|].
    now destruct (get_field_num n b).
Qed.

Lemma get_field_num_lookup (n : string) (info : RecordInfo) (i : nat) :
  get_field_num n info = Some i ->
  exists f, info !! i = Some f /\ field_name f = n.
Proof.
  revert i; induction info as [|f info IH]; intros i; simpl; [discriminate|].
  destruct (String.eqb_spec (field_name f) n) as [E|E].
  - intros [= <-]. now exists f.
  - destruct (get_field_num n info) as [j|]; simpl; [|discriminate].
    intros [= <-]. apply (IH j eq_refl).
Qed.

Lemma get_field_num_free (n : string) (info : RecordInfo) :
  names_free info = true -> is_new_name n = true ->
  get_field_num n info = None.
Proof.
  intros Hfree Hn; induction info as [|f info IH]; simpl in *; [reflexivity|].
  apply andb_prop in Hfree as [Hf Hfree].
  destruct (String.eqb_spec (field_name f) n) as [E|E].
  - rewrite E, Hn in Hf. discriminate.
  - now rewrite (IH Hfree).
Qed.

(** A name that [ii_init] has added is found in the published layout. *)
Lemma get_field_num_new (n : string) (info : RecordInfo) :
  is_new_name n = true ->
  exists i f, get_field_num n (output_schema info) = Some i /\
              field_at (output_schema info) i = Some (mkFieldObj i f) /\
              field_name f = n.
Proof.
  intros Hn.
  assert (exists j, get_field_num n new_fields = Some j) as [j Hj].
  { unfold is_new_name in Hn. apply existsb_exists in Hn as (f & Hin & Heq).
    apply String.eqb_eq in Heq. subst n. unfold new_fields in Hin.
    repeat (destruct Hin as [<-|Hin]; [eexists; reflexivity|]).
    destruct Hin. }
  assert (exists i, get_field_num n (output_schema info) = Some i) as [i Hi].
  { unfold output_schema. rewrite get_field_num_app, Hj.
    destruct (get_field_num n info); simpl; eauto. }
  destruct (get_field_num_lookup _ _ _ Hi) as (f & Hf & Hname).
  exists i, f. unfold field_at. now rewrite Hf.
Qed.

(** With none of the five names taken, the new fields are found at the
    positions right after the incoming ones. *)
Lemma get_field_num_new_free (info : RecordInfo) (k : nat) (f : Field) :
  names_free info = true ->
  new_fields !! k = Some f ->
  get_field_num (field_name f) (output_schema info) = Some (length info + k)%nat /\
  field_at (output_schema info) (length info + k) =
    Some (mkFieldObj (length info + k) f).
Proof.
  intros Hfree Hk. split.
  - unfold output_schema. rewrite get_field_num_app.
    rewrite (get_field_num_free _ _ Hfree).
    + do 5 (destruct k as [|k]; [injection Hk as <-; reflexivity|]).
      discriminate.
    + do 5 (destruct k as [|k]; [injection Hk as <-; reflexivity|]).
      discriminate.
  - unfold field_at, output_schema.
    rewrite lookup_app_r by lia.
    replace (length info + k - length info)%nat with k by lia.
    now rewrite Hk.
Qed.

Lemma cp_map_adds (c : RecordCopier) (l : list nat) :
  cp_map (foldl (fun c index => copier_add index index c) c l) =
  cp_map c ++ map (fun i => (i, i)) l.
Proof.
  revert c; induction l as [|i l IH]; intros c; simpl.
  - now rewrite app_nil_r.
  - rewrite IH. simpl. now rewrite <- app_assoc.
Qed.

(** Copying along the diagonal replaces the first fields of the buffer by
    the incoming record. *)
Lemma copy_diagonal (row buf : RecordRef) (k : nat) :
  (k <= length row)%nat -> (k <= length buf)%nat ->
  foldl (copy_pair row) buf (diagonal k) = take k row ++ drop k buf.
Proof.
  unfold diagonal. induction k as [|k IH]; intros Hr Hb.
  - simpl. now rewrite drop_0.
  - rewrite seq_S, map_app, foldl_app. simpl. rewrite IH by lia.
    unfold copy_pair. simpl.
    destruct (lookup_lt_is_Some_2 row k ltac:(lia)) as [v Hv]. rewrite Hv.
    destruct (lookup_lt_is_Some_2 buf k ltac:(lia)) as [w Hw].
    rewrite (take_S_r _ _ _ Hv).
    rewrite (drop_S _ _ _ Hw).
    rewrite insert_app_r_alt by (rewrite length_take; lia).
    rewrite length_take. replace (k - k `min` length row)%nat with O by lia.
    simpl. now rewrite <- app_assoc.
Qed.

End Layouts.

(** * Schema negotiation *)

Section Negotiation.

Lemma lookup_field_new (info : RecordInfo) (n : string) :
  is_new_name n = true ->
  exists f, resolved_in info n f /\
            forall p, lookup_field n (output_schema info) p = (Ret f, p).
Proof.
  intros Hn. destruct (get_field_num_new n info Hn) as (i & f & Hi & Hf & Hname).
  exists (mkFieldObj i f). split; [now repeat split|].
  intros p. unfold lookup_field. now rewrite Hi, Hf.
Qed.

Lemma copier_of_init (info : RecordInfo) :
  copier_done_adding
    (foldl (fun c index => copier_add index index c)
       (RecordCopier_new (output_schema info) info)
       (seq 0 (num_fields info))) =
  mkCopier (output_schema info) info (diagonal (length info)) true.
Proof.
  unfold copier_done_adding. rewrite cp_map_adds. simpl.
  assert (H : forall l c,
    cp_dst (foldl (fun c index => copier_add index index c) c l) = cp_dst c /\
    cp_src (foldl (fun c index => copier_add index index c) c l) = cp_src c).
  { induction l as [|i l IH]; intros c; simpl; [easy|]. now rewrite !(proj1 (IH _)), !(proj2 (IH _)). }
  destruct (H (seq 0 (num_fields info)) (RecordCopier_new (output_schema info) info)) as [-> ->].
  reflexivity.
Qed.

Lemma layout_of_init (info : RecordInfo) :
  add_field "Compound_Score" data_type_double 0
    (add_field "Positive_Score" data_type_double 0
       (add_field "Neutral_Score" data_type_double 0
          (add_field "Negative_Score" data_type_double 0
             (add_field "Sentiment_Output" data_type data_size (clone info))))) =
  output_schema info.
Proof. unfold add_field, clone, output_schema. now rewrite <- !app_assoc. Qed.

Arguments clone : simpl never.
Arguments add_field : simpl never.
Arguments lookup_field : simpl never.
Arguments construct_record_creator : simpl never.
Arguments copier_done_adding : simpl never.
Arguments output_schema : simpl never.

(** [ii_init] on an instance that has its output anchor and has not
    negotiated before: everything up to line 162 succeeds, whatever the
    configuration, and line 165 runs in the resulting state. *)
Lemma ii_init_fresh (info : RecordInfo) (p : Plugin) :
  fresh p -> is_Some (output_anchor p) ->
  exists f1 f2 f3 f4 f5,
    resolved_in info "Sentiment_Output" f1 /\
    resolved_in info "Negative_Score" f2 /\
    resolved_in info "Neutral_Score" f3 /\
    resolved_in info "Positive_Score" f4 /\
    resolved_in info "Compound_Score" f5 /\
    ii_init info p = resolve_input info (negotiated info p f1 f2 f3 f4 f5).
Proof.
  intros (H1 & H2 & H3 & H4 & H5) [a Ha].
  destruct (lookup_field_new info "Sentiment_Output" eq_refl) as (f1 & R1 & L1).
  destruct (lookup_field_new info "Negative_Score" eq_refl) as (f2 & R2 & L2).
  destruct (lookup_field_new info "Neutral_Score" eq_refl) as (f3 & R3 & L3).
  destruct (lookup_field_new info "Positive_Score" eq_refl) as (f4 & R4 & L4).
  destruct (lookup_field_new info "Compound_Score" eq_refl) as (f5 & R5 & L5).
  exists f1, f2, f3, f4, f5. repeat (split; [assumption|]).
  destruct p; simpl in *; subst.
  unfold ii_init, resolve, resolve_input, negotiated.
  cbn -[String.eqb]. rewrite !layout_of_init, copier_of_init.
  unfold bind at 1 2 3. cbn -[String.eqb]. rewrite L1.
  unfold bind at 1 2 3 4. cbn -[String.eqb]. rewrite L2.
  unfold bind at 1 2 3 4. cbn -[String.eqb]. rewrite L3.
  unfold bind at 1 2 3 4. cbn -[String.eqb]. rewrite L4.
  unfold bind at 1 2 3 4. cbn -[String.eqb]. rewrite L5.
  reflexivity.
Qed.

(** Once an attribute holds a field object, [ii_init] fails at its first
    [add_field]. *)
Lemma ii_init_rebound (info : RecordInfo) (p : Plugin) (f : FieldObj) :
  Sentiment_score p = AField f ->
  ii_init info p = (Raise (TypeError "field name is not a str"), p).
Proof.
  intros H. unfold ii_init, bind at 1 2, get, as_field_name. now rewrite H.
Qed.

Lemma configured_fresh tool xml : fresh (configured tool xml).
Proof.
  unfold configured, pi_init, fresh.
  destruct (elem_find "FieldSelect" xml); repeat split.
Qed.

Lemma configured_anchor tool xml :
  output_anchor (configured tool xml) = Some "Output".
Proof.
  unfold configured, pi_init. now destruct (elem_find "FieldSelect" xml).
Qed.

Lemma configured_selection tool xml :
  field_selection (configured tool xml) =
  elem_text <$> elem_find "FieldSelect" xml.
Proof.
  unfold configured, pi_init. now destruct (elem_find "FieldSelect" xml).
Qed.

Lemma configured_events tool xml :
  events (configured tool xml) =
  match elem_find "FieldSelect" xml with
  | Some _ => []
  | None => [ev_output_message tool msg_error "Please select field to analyze"]
  end ++ [ev_get_output_anchor "Output"].
Proof.
  unfold configured, pi_init. now destruct (elem_find "FieldSelect" xml).
Qed.

Lemma configured_rest tool xml :
  n_tool_id (configured tool xml) = tool /\
  input_field (configured tool xml) = None /\
  record_copier (configured tool xml) = None /\
  record_creator (configured tool xml) = None.
Proof.
  unfold configured, pi_init. now destruct (elem_find "FieldSelect" xml).
Qed.

End Negotiation.

(** * Row delivery *)

Section Delivery.

Variable polarity_scores : string -> Scores.
Variable push_accepts : list event -> RecordRef -> bool.

Lemma same_wiring_refl p : same_wiring p p.
Proof. now repeat split. Qed.

Lemma same_wiring_trans p q r :
  same_wiring p q -> same_wiring q r -> same_wiring p r.
Proof. unfold same_wiring. intuition congruence. Qed.

Lemma keeps_bind {A B} (m : M A) (k : A -> M B) :
  keeps m -> (forall a, keeps (k a)) -> keeps (bind m k).
Proof.
  intros Hm Hk p. unfold bind. specialize (Hm p).
  destruct (m p) as [[a|e] p1]; simpl in *; [|exact Hm].
  eapply same_wiring_trans; [exact Hm | apply Hk].
Qed.

Lemma quiet_bind {A B} (m : M A) (k : A -> M B) :
  quiet m -> (forall a, quiet (k a)) -> quiet (bind m k).
Proof.
  intros Hm Hk p. unfold bind. specialize (Hm p).
  destruct (m p) as [[a|e] p1]; simpl in *; [|exact Hm].
  now rewrite Hk.
Qed.

Lemma keeps_ret {A} (a : A) : keeps (ret a).
Proof. intros p; apply same_wiring_refl. Qed.

Lemma keeps_raise {A} e : keeps (@raise A e).
Proof. intros p; apply same_wiring_refl. Qed.

Lemma keeps_get {A} (f : Plugin -> A) : keeps (get f).
Proof. intros p; apply same_wiring_refl. Qed.

Lemma keeps_getattr {A} o n (f : Plugin -> option A) : keeps (getattr o n f).
Proof. intros p; unfold getattr; destruct (f p); apply same_wiring_refl. Qed.

Lemma keeps_emit e : keeps (emit e).
Proof. intros p; now repeat split. Qed.

Lemma keeps_index values i : keeps (index values i).
Proof. intros p; unfold index; destruct (values !! i); apply same_wiring_refl. Qed.

Lemma keeps_on_creator meth f :
  (forall c, rc_info (f c) = rc_info c) -> keeps (on_creator meth f).
Proof.
  intros Hf p. unfold on_creator, bind, getattr.
  destruct (record_creator p) as [c|] eqn:E; simpl; [|apply same_wiring_refl].
  repeat split; simpl. now rewrite E, Hf.
Qed.

Lemma keeps_store a text : keeps (store a text).
Proof.
  intros p. unfold store, bind, get, as_field_obj, getattr.
  destruct (a p); simpl; [apply same_wiring_refl|].
  destruct (record_creator p) as [c|] eqn:E; simpl; [|apply same_wiring_refl].
  repeat split; simpl. now rewrite E.
Qed.

Lemma keeps_anchor_push_record r : keeps (anchor_push_record push_accepts r).
Proof. intros p; now repeat split. Qed.

Lemma quiet_ret {A} (a : A) : quiet (ret a).
Proof. now intros p. Qed.

Lemma quiet_raise {A} e : quiet (@raise A e).
Proof. now intros p. Qed.

Lemma quiet_get {A} (f : Plugin -> A) : quiet (get f).
Proof. now intros p. Qed.

Lemma quiet_getattr {A} o n (f : Plugin -> option A) : quiet (getattr o n f).
Proof. intros p; unfold getattr; now destruct (f p). Qed.

Lemma quiet_index values i : quiet (index values i).
Proof. intros p; unfold index; now destruct (values !! i). Qed.

Lemma quiet_on_creator meth f : quiet (on_creator meth f).
Proof.
  intros p. unfold on_creator, bind, getattr.
  now destruct (record_creator p).
Qed.

Lemma quiet_store a text : quiet (store a text).
Proof.
  intros p. unfold store, bind, get, as_field_obj, getattr.
  destruct (a p); simpl; [reflexivity|].
  now destruct (record_creator p).
Qed.

Create HintDb frame.
Hint Resolve keeps_ret keeps_raise keeps_get keeps_getattr keeps_emit
  keeps_index keeps_store keeps_anchor_push_record
  quiet_ret quiet_raise quiet_get quiet_getattr quiet_index
  quiet_on_creator quiet_store : frame.

Lemma bind_assoc {A B C} (m : M A) (k : A -> M B) (h : B -> M C) :
  forall p, bind (bind m k) h p = bind m (fun a => bind (k a) h) p.
Proof. intros p. unfold bind. now destruct (m p) as [[a|e] p1]. Qed.

Lemma bind_ext {A B} (m : M A) (k h : A -> M B) :
  (forall a q, k a q = h a q) -> forall p, bind m k p = bind m h p.
Proof. intros H p. unfold bind. destruct (m p) as [[a|e] p1]; [apply H | reflexivity]. Qed.

(** [ii_push_record] is its two halves in sequence. *)
Lemma ii_push_record_split (in_record : RecordRef) (p : Plugin) :
  ii_push_record polarity_scores push_accepts in_record p =
  bind (build_record polarity_scores in_record) (push_out push_accepts) p.
Proof.
  unfold ii_push_record, build_record.
  do 4 (rewrite bind_assoc; apply bind_ext; clear p; intros ? p).
  reflexivity.
Qed.

Lemma keeps_build_record in_record : keeps (build_record polarity_scores in_record).
Proof.
  unfold build_record.
  repeat first
    [ apply keeps_on_creator; reflexivity
    | solve [auto with frame]
    | apply keeps_bind; [|intros ?]
    | match goal with |- keeps (match ?x with _ => _ end) => destruct x end ].
Qed.

Lemma quiet_build_record in_record : quiet (build_record polarity_scores in_record).
Proof.
  unfold build_record.
  repeat first
    [ solve [auto with frame]
    | apply quiet_bind; [|intros ?]
    | match goal with |- quiet (match ?x with _ => _ end) => destruct x end ].
Qed.

Lemma keeps_push_out o : keeps (push_out push_accepts o).
Proof.
  unfold push_out.
  repeat first
    [ solve [auto with frame]
    | apply keeps_bind; [|intros ?]
    | match goal with |- keeps (match ?x with _ => _ end) => destruct x end ].
Qed.

Lemma keeps_ii_push_record in_record :
  keeps (ii_push_record polarity_scores push_accepts in_record).
Proof.
  intros p. rewrite ii_push_record_split.
  apply keeps_bind; [apply keeps_build_record | apply keeps_push_out].
Qed.

(** A delivery either raises and logs nothing, or pushes one record and
    returns the downstream tool's answer. *)
Lemma push_out_log (o : option RecordRef) (p : Plugin) :
  (exists e, fst (push_out push_accepts o p) = Raise e /\ events (snd (push_out push_accepts o p)) = events p) \/
  (exists r, o = Some r /\
             fst (push_out push_accepts o p) = Ret (push_accepts (events p) r) /\
             events (snd (push_out push_accepts o p)) =
               events p ++ [ev_anchor_push_record r (push_accepts (events p) r)]).
Proof.
  unfold push_out, bind, getattr.
  destruct (output_anchor p); [|left; eauto].
  destruct o as [r|]; simpl; [|left; eauto].
  right. exists r. split; [reflexivity|].
  unfold get, emit, modify, ret. simpl.
  now destruct (push_accepts (events p) r).
Qed.

Lemma ii_push_record_log (in_record : RecordRef) (p : Plugin) :
  let out := ii_push_record polarity_scores push_accepts in_record p in
  (exists e, fst out = Raise e /\ events (snd out) = events p) \/
  (exists r, fst out = Ret (push_accepts (events p) r) /\
             events (snd out) =
               events p ++ [ev_anchor_push_record r (push_accepts (events p) r)]).
Proof.
  cbv zeta. rewrite ii_push_record_split. unfold bind.
  pose proof (quiet_build_record in_record p) as Hq.
  destruct (build_record polarity_scores in_record p) as [[o|e] p1]; simpl in *.
  - destruct (push_out_log o p1) as [(e & He & Hev)|(r & _ & Hr & Hev)].
    + left. exists e. now rewrite Hev.
    + right. exists r. now rewrite Hr, Hev, Hq.
  - left. eauto.
Qed.

Lemma reset_copy (info : RecordInfo) (row : RecordRef) :
  length row = length info ->
  foldl (copy_pair row) (replicate (length (output_schema info)) VNull)
    (diagonal (length info)) = row ++ replicate 5 VNull.
Proof.
  intros Hlen. unfold output_schema. rewrite length_app. simpl.
  rewrite copy_diagonal by (rewrite ?length_replicate; lia).
  rewrite <- Hlen, firstn_all, drop_replicate.
  now replace (length row + 5 - length row)%nat with 5%nat by lia.
Qed.

Lemma ready_attrs info p :
  ready info p ->
  Sentiment_score p = AField (mkFieldObj (length info + 0) (mkField "Sentiment_Output" v_wstring 100)) /\
  Negative_Score p = AField (mkFieldObj (length info + 1) (mkField "Negative_Score" double 0)) /\
  Neutral_Score p = AField (mkFieldObj (length info + 2) (mkField "Neutral_Score" double 0)) /\
  Positive_Score p = AField (mkFieldObj (length info + 3) (mkField "Positive_Score" double 0)) /\
  Compound_Score p = AField (mkFieldObj (length info + 4) (mkField "Compound_Score" double 0)).
Proof.
  intros [H _]. repeat split.
  - apply (H 0%nat _ eq_refl).
  - apply (H 1%nat _ eq_refl).
  - apply (H 2%nat _ eq_refl).
  - apply (H 3%nat _ eq_refl).
  - apply (H 4%nat _ eq_refl).
Qed.

Arguments parse_float : simpl never.
Arguments findall : simpl never.
Arguments str_scores : simpl never.
Arguments get_as_string : simpl never.
Arguments diagonal : simpl never.
Arguments substring : simpl never.

(** Building the output record for a row of the incoming layout. *)
Lemma build_record_ready (info : RecordInfo) (row : RecordRef) (p : Plugin)
    (fld : FieldObj) :
  ready info p -> input_field p = Some fld -> length row = length info ->
  build_record polarity_scores row p =
  match get_as_string fld row with
  | None => (Ret None, with_record info (row ++ replicate 5 VNull) p)
  | Some sentence =>
      let snt := polarity_scores sentence in
      if wf_scores snt
      then (Ret (Some (row ++ sentiment_values snt)),
            with_record info (row ++ sentiment_values snt) p)
      else build_record polarity_scores row p
  end.
Proof.
  intros Hready Hfld Hlen.
  destruct (ready_attrs _ _ Hready) as (A1 & A2 & A3 & A4 & A5).
  destruct Hready as (_ & [a Ha] & _ & Hcp & Hcr).
  destruct p as [t s1 s2 s3 s4 s5 sel oa inf cp cr ev]; simpl in *; subst.
  destruct cr as [[ri buf]|]; simpl in Hcr; [|discriminate].
  injection Hcr as ->.
  assert (Hrc : copier_copy
             (mkCopier (output_schema info) info (diagonal (length info)) true)
             (creator_reset (mkCreator (output_schema info) buf)) row =
           mkCreator (output_schema info) (row ++ replicate 5 VNull)).
  { unfold copier_copy, creator_reset. simpl. now rewrite (reset_copy _ _ Hlen). }
  destruct (get_as_string fld row) as [sentence|] eqn:Etext.
  - simpl. destruct (wf_scores (polarity_scores sentence)) eqn:Hwf; [|reflexivity].
    pose proof Hwf as Hwf'. unfold wf_scores in Hwf'.
    apply andb_prop in Hwf' as [Hwf' W4]. apply andb_prop in Hwf' as [Hwf' W3].
    apply andb_prop in Hwf' as [W1 W2].
    unfold build_record, with_record.
    cbn -[String.eqb]. rewrite Hrc, Etext.
    rewrite (findall_str_scores _ Hwf).
    cbn -[String.eqb]. unfold set_from_string, value_from_string.
    cbn -[String.eqb].
    rewrite (parse_float_repr _ W1), (parse_float_repr _ W2),
      (parse_float_repr _ W3), (parse_float_repr _ W4).
    rewrite <- Hlen, !insert_app_r. reflexivity.
  - unfold build_record, with_record.
    cbn -[String.eqb]. now rewrite Hrc, Etext.
Qed.

Lemma resolve_input_cases (info : RecordInfo) (q : Plugin) :
  resolve_input info q =
  match field_selection q with
  | None => (Raise (AttributeError "AyxPlugin" "field_selection"), q)
  | Some None => (Raise (TypeError "field name is not a str"), q)
  | Some (Some name) =>
      match get_field_num name (output_schema info) with
      | None => (Raise (SdkError "field not found"), q)
      | Some i =>
          match field_at (output_schema info) i with
          | Some f => (Ret true, snd (set_input_field f q))
          | None => (Raise (IndexError "record_info"), q)
          end
      end
  end.
Proof.
  unfold resolve_input, bind, getattr, lookup_field.
  destruct (field_selection q) as [[name|]|]; try reflexivity.
  unfold ret at 1.
  destruct (get_field_num name (output_schema info)) as [i|]; [|reflexivity].
  now destruct (field_at (output_schema info) i).
Qed.

Lemma resolved_free (info : RecordInfo) (k : nat) (f : Field) (g : FieldObj) :
  names_free info = true -> new_fields !! k = Some f ->
  resolved_in info (field_name f) g ->
  g = mkFieldObj (length info + k) f.
Proof.
  intros Hfree Hk (Hnum & Hat & _).
  destruct (get_field_num_new_free info k f Hfree Hk) as [Hnum' Hat'].
  rewrite Hnum' in Hnum. injection Hnum as E. rewrite <- E in Hat.
  rewrite Hat' in Hat. now injection Hat.
Qed.

(** A successful first [ii_init] publishes the layout once and leaves the
    stream ready. *)
Lemma ii_init_ready (info : RecordInfo) (p0 p : Plugin) :
  names_free info = true ->
  fresh p0 -> is_Some (output_anchor p0) ->
  ii_init info p0 = (Ret true, p) ->
  ready info p /\
  events p = events p0 ++ [ev_anchor_init (output_schema info)].
Proof.
  intros Hfree Hfresh Hanchor Hinit.
  destruct (ii_init_fresh info p0 Hfresh Hanchor)
    as (f1 & f2 & f3 & f4 & f5 & R1 & R2 & R3 & R4 & R5 & E).
  rewrite E, resolve_input_cases in Hinit. clear E.
  apply (resolved_free info 0 _ _ Hfree eq_refl) in R1.
  apply (resolved_free info 1 _ _ Hfree eq_refl) in R2.
  apply (resolved_free info 2 _ _ Hfree eq_refl) in R3.
  apply (resolved_free info 3 _ _ Hfree eq_refl) in R4.
  apply (resolved_free info 4 _ _ Hfree eq_refl) in R5.
  subst. simpl in Hinit.
  destruct (field_selection p0) as [[name|]|]; try discriminate.
  destruct (get_field_num name (output_schema info)) as [i|]; [|discriminate].
  destruct (field_at (output_schema info) i) as [f|]; [|discriminate].
  injection Hinit as <-. split; [|reflexivity].
  split; [|simpl; repeat split; eauto].
  intros k f' Hk.
  do 5 (destruct k as [|k]; [injection Hk as <-; reflexivity|]).
  discriminate.
Qed.

Lemma ready_kept (info : RecordInfo) (p p' : Plugin) :
  same_wiring p p' -> ready info p -> ready info p'.
Proof.
  unfold same_wiring, ready.
  intros (_ & -> & -> & -> & -> & -> & _ & -> & -> & -> & ->). tauto.
Qed.

Lemma push_records_cons (r : RecordRef) (rows : list RecordRef) (p : Plugin) :
  push_records polarity_scores push_accepts (r :: rows) p =
  match ii_push_record polarity_scores push_accepts r p with
  | (Ret true, p') => push_records polarity_scores push_accepts rows p'
  | (Ret false, p') => (Ret false, p')
  | (Raise e, p') => (Raise e, p')
  end.
Proof.
  simpl. unfold bind.
  now destruct (ii_push_record _ _ r p) as [[[|]|e] p'].
Qed.

Lemma keeps_push_records rows :
  keeps (push_records polarity_scores push_accepts rows).
Proof.
  induction rows as [|r rows IH]; intros p; [apply same_wiring_refl|].
  rewrite push_records_cons.
  pose proof (keeps_ii_push_record r p) as H.
  destruct (ii_push_record _ _ r p) as [[[|]|e] p']; simpl in *; try exact H.
  eapply same_wiring_trans; [exact H | apply IH].
Qed.

Lemma run_stream_configured tool xml info rows :
  run_stream polarity_scores push_accepts xml info rows (AyxPlugin_init tool) =
  bind (ii_init info)
    (fun ok : bool => if ok then push_records polarity_scores push_accepts rows
                      else ret false)
    (configured tool xml).
Proof.
  unfold run_stream, configured, pi_init.
  now destruct (elem_find "FieldSelect" xml).
Qed.

(** Between the rows of a stream that has run without failure so far, the
    plugin is ready. *)
Lemma streaming_ready tool xml info rows p :
  names_free info = true ->
  run_stream polarity_scores push_accepts xml info rows (AyxPlugin_init tool)
    = (Ret true, p) ->
  ready info p.
Proof.
  intros Hfree. rewrite run_stream_configured. unfold bind.
  destruct (ii_init info (configured tool xml)) as [[[|]|e] p1] eqn:Hinit;
    try discriminate.
  intros Hrows.
  destruct (ii_init_ready info _ _ Hfree (configured_fresh tool xml)
              (ex_intro _ _ (configured_anchor tool xml)) Hinit) as [Hready _].
  pose proof (keeps_push_records rows p1) as Hk. rewrite Hrows in Hk.
  exact (ready_kept _ _ _ Hk Hready).
Qed.

(** ** Independence from the tool id and from the downstream answers *)

Lemma blind_bind {A B} (m : M A) (k : A -> M B) :
  blind m -> (forall a, blind (k a)) -> blind (bind m k).
Proof.
  intros Hm Hk p q Hpq. unfold bind. destruct (Hm p q Hpq) as [Hres Hst].
  destruct (m p) as [[a|e] p1], (m q) as [[b|e'] q1]; simpl in *;
    try discriminate.
  - injection Hres as <-. now apply Hk.
  - injection Hres as <-. now split.
Qed.

Lemma blind_ret {A} (a : A) : blind (ret a).
Proof. now intros p q H. Qed.

Lemma blind_raise {A} e : blind (@raise A e).
Proof. now intros p q H. Qed.

Lemma blind_get {A} (f : Plugin -> A) : shared f -> blind (get f).
Proof. intros Hf p q H. simpl. split; [f_equal; now apply Hf | exact H]. Qed.

Lemma blind_getattr {A} o n (f : Plugin -> option A) :
  shared f -> blind (getattr o n f).
Proof.
  intros Hf p q H. unfold getattr. rewrite (Hf p q H).
  now destruct (f q).
Qed.

Lemma blind_index values i : blind (index values i).
Proof. intros p q H. unfold index. now destruct (values !! i). Qed.

Lemma blind_lookup_field n info : blind (lookup_field n info).
Proof.
  intros p q H. unfold lookup_field.
  destruct (get_field_num n info) as [i|]; [|now split].
  now destruct (field_at info i).
Qed.

Lemma blind_emit e : blind (emit e).
Proof.
  intros p q H. split; [reflexivity|]. unfold agree in *. simpl.
  unfold pushed in *. rewrite !omap_app. intuition congruence.
Qed.

Ltac blind_setter :=
  let p := fresh "p" in let q := fresh "q" in let H := fresh "H" in
  intros p q H; split; [reflexivity|]; unfold agree in *; simpl;
  intuition congruence.

Lemma blind_set_record_creator c : blind (set_record_creator c).
Proof. blind_setter. Qed.

Lemma blind_set_record_copier c : blind (set_record_copier c).
Proof. blind_setter. Qed.

Lemma blind_set_input_field f : blind (set_input_field f).
Proof. blind_setter. Qed.

Lemma blind_set_Sentiment_score a : blind (set_Sentiment_score a).
Proof. blind_setter. Qed.

Lemma blind_set_Negative_Score a : blind (set_Negative_Score a).
Proof. blind_setter. Qed.

Lemma blind_set_Neutral_Score a : blind (set_Neutral_Score a).
Proof. blind_setter. Qed.

Lemma blind_set_Positive_Score a : blind (set_Positive_Score a).
Proof. blind_setter. Qed.

Lemma blind_set_Compound_Score a : blind (set_Compound_Score a).
Proof. blind_setter. Qed.

Lemma shared_fields :
  shared Sentiment_score /\ shared Negative_Score /\ shared Neutral_Score /\
  shared Positive_Score /\ shared Compound_Score /\ shared field_selection /\
  shared output_anchor /\ shared input_field /\ shared record_copier /\
  shared record_creator.
Proof. unfold shared, agree. repeat split; intros p q H; tauto. Qed.

Lemma blind_as_field_name a : blind (as_field_name a).
Proof. intros p q H. now destruct a. Qed.

Lemma blind_as_field_obj a : blind (as_field_obj a).
Proof. intros p q H. now destruct a. Qed.

Hint Resolve blind_ret blind_raise blind_index blind_lookup_field blind_emit
  blind_set_record_creator blind_set_record_copier blind_set_input_field
  blind_set_Sentiment_score blind_set_Negative_Score blind_set_Neutral_Score
  blind_set_Positive_Score blind_set_Compound_Score
  blind_as_field_name blind_as_field_obj : frame.

Ltac blind_step :=
  first
    [ solve [auto with frame]
    | apply blind_get; apply shared_fields
    | apply blind_getattr; apply shared_fields
    | apply blind_bind; [|intros ?]
    | match goal with |- blind (match ?x with _ => _ end) => destruct x end ].

Lemma blind_ii_init info : blind (ii_init info).
Proof. unfold ii_init, resolve. repeat blind_step. Qed.

Lemma blind_build_record in_record : blind (build_record polarity_scores in_record).
Proof. unfold build_record, on_creator, store. repeat blind_step. Qed.

(** ** Deliveries in a negotiated stream *)

Lemma wired_kept (p p' : Plugin) : same_wiring p p' -> wired p -> wired p'.
Proof.
  unfold same_wiring, wired.
  intros (_ & _ & _ & _ & _ & _ & _ & -> & _ & -> & Hc) (? & ? & [c Hcr]).
  repeat split; try assumption.
  rewrite Hcr in Hc. destruct (record_creator p'); [eauto | discriminate].
Qed.

(** The state [ii_init] leaves on a configured instance, whatever its
    result. *)
Lemma ii_init_configured (tool : Z) (xml : Element) (info : RecordInfo) :
  exists f1 f2 f3 f4 f5,
    (resolved_in info "Sentiment_Output" f1 /\
     resolved_in info "Negative_Score" f2 /\
     resolved_in info "Neutral_Score" f3 /\
     resolved_in info "Positive_Score" f4 /\
     resolved_in info "Compound_Score" f5) /\
    ii_init info (configured tool xml) =
    resolve_input info (negotiated info (configured tool xml) f1 f2 f3 f4 f5).
Proof.
  destruct (ii_init_fresh info _ (configured_fresh tool xml)
              (ex_intro _ _ (configured_anchor tool xml)))
    as (f1 & f2 & f3 & f4 & f5 & R1 & R2 & R3 & R4 & R5 & E).
  exists f1, f2, f3, f4, f5.
  split; [exact (conj R1 (conj R2 (conj R3 (conj R4 R5)))) | exact E].
Qed.

Lemma resolve_input_frame (info : RecordInfo) (q : Plugin) :
  events (snd (resolve_input info q)) = events q /\
  wired (snd (resolve_input info q)) = wired q /\
  Sentiment_score (snd (resolve_input info q)) = Sentiment_score q /\
  Negative_Score (snd (resolve_input info q)) = Negative_Score q /\
  Neutral_Score (snd (resolve_input info q)) = Neutral_Score q /\
  Positive_Score (snd (resolve_input info q)) = Positive_Score q /\
  Compound_Score (snd (resolve_input info q)) = Compound_Score q.
Proof.
  rewrite resolve_input_cases.
  destruct (field_selection q) as [[name|]|]; try now repeat split.
  destruct (get_field_num name (output_schema info)) as [i|]; [|now repeat split].
  now destruct (field_at (output_schema info) i).
Qed.

Lemma streaming_wired tool xml info rows p :
  run_stream polarity_scores push_accepts xml info rows (AyxPlugin_init tool)
    = (Ret true, p) ->
  wired p.
Proof.
  rewrite run_stream_configured. unfold bind.
  destruct (ii_init_configured tool xml info) as (f1 & f2 & f3 & f4 & f5 & _ & E).
  destruct (ii_init info (configured tool xml)) as [[[|]|e] p1] eqn:Hinit;
    try discriminate.
  intros Hrows.
  pose proof (keeps_push_records rows p1) as Hk. rewrite Hrows in Hk.
  apply (wired_kept _ _ Hk).
  destruct (resolve_input_frame info (negotiated info (configured tool xml) f1 f2 f3 f4 f5))
    as (_ & Hw & _).
  rewrite <- E in Hw. simpl in Hw. rewrite Hw.
  unfold wired, negotiated; simpl. rewrite configured_anchor. eauto.
Qed.

(** A null text: the record is built but the local is never bound. *)
Lemma build_record_null (row : RecordRef) (p : Plugin) (fld : FieldObj) :
  wired p -> input_field p = Some fld -> get_as_string fld row = None ->
  fst (build_record polarity_scores row p) = Ret None.
Proof.
  intros (_ & [cp Hcp] & [c Hc]) Hfld Hnull.
  destruct p as [t s1 s2 s3 s4 s5 sel oa inf cpo cr ev]; simpl in *; subst.
  unfold build_record. cbn -[String.eqb]. now rewrite Hnull.
Qed.

Lemma push_out_unbound (p : Plugin) :
  is_Some (output_anchor p) ->
  push_out push_accepts None p = (Raise (UnboundLocalError "out_record"), p).
Proof. intros [a Ha]. unfold push_out, bind, getattr. now rewrite Ha. Qed.

Lemma ii_push_record_null (row : RecordRef) (p : Plugin) (fld : FieldObj) :
  wired p -> input_field p = Some fld -> get_as_string fld row = None ->
  exists p',
    ii_push_record polarity_scores push_accepts row p =
      (Raise (UnboundLocalError "out_record"), p') /\
    events p' = events p.
Proof.
  intros Hw Hfld Hnull.
  pose proof (build_record_null row p fld Hw Hfld Hnull) as Hb.
  pose proof (quiet_build_record row p) as Hq.
  pose proof (keeps_build_record row p) as Hk.
  rewrite ii_push_record_split. unfold bind.
  destruct (build_record polarity_scores row p) as [o p1]; simpl in *. subst o.
  exists p1. split; [|exact Hq].
  apply push_out_unbound. apply (wired_kept _ _ Hk Hw).
Qed.

(** A non-null text in a well-formed row: the incoming values followed by
    the five sentiment values are pushed. *)
Lemma ii_push_record_ready (info : RecordInfo) (row : RecordRef) (p : Plugin)
    (fld : FieldObj) (sentence : string) :
  ready info p -> input_field p = Some fld -> length row = length info ->
  get_as_string fld row = Some sentence ->
  wf_scores (polarity_scores sentence) = true ->
  let out_record := row ++ sentiment_values (polarity_scores sentence) in
  let accepted := push_accepts (events p) out_record in
  exists p',
    ii_push_record polarity_scores push_accepts row p = (Ret accepted, p') /\
    events p' = events p ++ [ev_anchor_push_record out_record accepted].
Proof.
  intros Hready Hfld Hlen Htext Hwf out_record accepted.
  pose proof (build_record_ready info row p fld Hready Hfld Hlen) as Hb.
  rewrite Htext in Hb. cbv zeta in Hb. rewrite Hwf in Hb.
  rewrite ii_push_record_split. unfold bind. rewrite Hb.
  destruct Hready as (_ & [a Ha] & _).
  unfold push_out, bind, getattr, with_record; simpl. rewrite Ha. simpl.
  fold out_record. fold accepted.
  destruct accepted; simpl; eexists; split; reflexivity.
Qed.

Lemma published_app (l1 l2 : list event) :
  published (l1 ++ l2) = published l1 ++ published l2.
Proof. apply omap_app. Qed.

Lemma pushed_app (l1 l2 : list event) :
  pushed (l1 ++ l2) = pushed l1 ++ pushed l2.
Proof. apply omap_app. Qed.

Lemma published_ii_push_record (row : RecordRef) (p : Plugin) :
  published (events (snd (ii_push_record polarity_scores push_accepts row p)))
  = published (events p).
Proof.
  destruct (ii_push_record_log row p) as [(e & _ & ->)|(r & _ & ->)];
    [reflexivity|].
  rewrite published_app. simpl. apply app_nil_r.
Qed.

Lemma published_push_records (rows : list RecordRef) (p : Plugin) :
  published (events (snd (push_records polarity_scores push_accepts rows p)))
  = published (events p).
Proof.
  revert p; induction rows as [|r rows IH]; intros p; [reflexivity|].
  rewrite push_records_cons.
  pose proof (published_ii_push_record r p) as H.
  destruct (ii_push_record _ _ r p) as [[[|]|e] p']; simpl in *; try exact H.
  now rewrite IH.
Qed.

(** Without a resolved input field a delivery stops at line 180. *)
Lemma ii_push_record_unresolved (row : RecordRef) (p : Plugin) :
  wired p -> input_field p = None ->
  exists p',
    ii_push_record polarity_scores push_accepts row p =
      (Raise (AttributeError "AyxPlugin" "input_field"), p') /\
    events p' = events p.
Proof.
  intros (_ & [cp Hcp] & [c Hc]) Hfld.
  destruct p as [t s1 s2 s3 s4 s5 sel oa inf cpo cr ev]; simpl in *; subst.
  unfold ii_push_record. cbn -[String.eqb]. eexists; split; reflexivity.
Qed.

End Delivery.

(** * Two runs *)

Section TwoRuns.

Variable polarity_scores : string -> Scores.
Variables accepts1 accepts2 : list event -> RecordRef -> bool.

Lemma agree_push_out (o : option RecordRef) (p q : Plugin) :
  agree p q ->
  agree (snd (push_out accepts1 o p)) (snd (push_out accepts2 o q)).
Proof.
  intros H. pose proof H as (_ & _ & _ & _ & _ & _ & Ha & _).
  unfold push_out, bind, getattr. rewrite Ha.
  destruct (output_anchor q); [|exact H].
  destruct o as [r|]; simpl; [|exact H].
  assert (Hpush : forall b1 b2,
    agree (snd (emit (ev_anchor_push_record r b1) p))
          (snd (emit (ev_anchor_push_record r b2) q))).
  { intros b1 b2. unfold agree in *. simpl. rewrite !pushed_app. simpl.
    intuition congruence. }
  specialize (Hpush (accepts1 (events p) r) (accepts2 (events q) r)).
  unfold get, ret.
  now destruct (accepts1 (events p) r), (accepts2 (events q) r).
Qed.

Lemma agree_ii_push_record (row : RecordRef) (p q : Plugin) :
  agree p q ->
  agree (snd (ii_push_record polarity_scores accepts1 row p))
        (snd (ii_push_record polarity_scores accepts2 row q)).
Proof.
  intros H. rewrite !ii_push_record_split. unfold bind.
  destruct (blind_build_record polarity_scores row p q H) as [Hres Hst].
  destruct (build_record polarity_scores row p) as [[o|e] p1],
           (build_record polarity_scores row q) as [[o'|e'] q1];
    simpl in *; try discriminate; [|exact Hst].
  injection Hres as <-. now apply agree_push_out.
Qed.

Lemma agree_configured (tool1 tool2 : Z) (xml : Element) :
  agree (configured tool1 xml) (configured tool2 xml).
Proof.
  unfold configured, pi_init.
  destruct (elem_find "FieldSelect" xml); now repeat split.
Qed.

Lemma push_records_one (accepts : list event -> RecordRef -> bool)
    (row : RecordRef) (p : Plugin) :
  snd (push_records polarity_scores accepts [row] p) =
  snd (ii_push_record polarity_scores accepts row p).
Proof.
  rewrite push_records_cons.
  now destruct (ii_push_record polarity_scores accepts row p) as [[[|]|e] p'].
Qed.

Lemma agree_run_one (tool1 tool2 : Z) (xml : Element) (info : RecordInfo)
    (row : RecordRef) :
  agree
    (snd (run_stream polarity_scores accepts1 xml info [row] (AyxPlugin_init tool1)))
    (snd (run_stream polarity_scores accepts2 xml info [row] (AyxPlugin_init tool2))).
Proof.
  rewrite !run_stream_configured. unfold bind.
  destruct (blind_ii_init info _ _ (agree_configured tool1 tool2 xml))
    as [Hres Hst].
  destruct (ii_init info (configured tool1 xml)) as [[[|]|e] p1],
           (ii_init info (configured tool2 xml)) as [[[|]|e'] q1];
    cbn [fst snd] in *; try discriminate; try exact Hst.
  rewrite !push_records_one. now apply agree_ii_push_record.
Qed.

End TwoRuns.

(** * The claims *)

Section Claims.

Variable polarity_scores : string -> Scores.
Variable push_accepts : list event -> RecordRef -> bool.

(** C1 (the code departs from the claim): in a stream that has run without
    failure so far, delivering a row whose configured text field is null
    does not emit a row.  [out_record] is bound only inside the branch for a
    non-null text, so the push at line 204 raises [UnboundLocalError]; the
    log of events is unchanged, nothing reaches the downstream tool, and the
    callback does not return. *)
Theorem null_text_row_raises_unbound_local
    (tool : Z) (xml : Element) (info : RecordInfo) (rows : list RecordRef)
    (p : Plugin) (fld : FieldObj) (row : RecordRef) :
  run_stream polarity_scores push_accepts xml info rows (AyxPlugin_init tool)
    = (Ret true, p) ->
  input_field p = Some fld ->
  get_as_string fld row = None ->
  exists p',
    ii_push_record polarity_scores push_accepts row p =
      (Raise (UnboundLocalError "out_record"), p') /\
    events p' = events p /\
    pushed (events p') = pushed (events p).
Proof.
  intros Hrun Hfld Hnull.
  destruct (ii_push_record_null polarity_scores push_accepts row p fld
              (streaming_wired _ _ _ _ _ _ _ Hrun) Hfld Hnull) as (p' & Hp & Hev).
  exists p'. repeat split; [exact Hp | exact Hev | now rewrite Hev].
Qed.

(** C8 (the code departs from the claim): [pi_push_all_records] reports
    nothing and returns nothing.  The message text is passed through
    [self.xmsg], which [AyxPlugin] does not define, so evaluating the
    arguments of [output_message] raises [AttributeError] before the engine
    is called; the state, and with it the log, is unchanged. *)
Theorem pi_push_all_records_raises (n_record_limit : Z) (p : Plugin) :
  pi_push_all_records n_record_limit p =
    (Raise (AttributeError "AyxPlugin" "xmsg"), p).
Proof. reflexivity. Qed.

(** C4: whatever the configuration and whatever rows follow, the stream
    publishes exactly one layout downstream: the incoming fields in their
    order, then [Sentiment_Output] (wide string of size 100),
    [Negative_Score], [Neutral_Score], [Positive_Score] and [Compound_Score]
    (doubles), in that order. *)
Theorem published_layout_is_input_plus_five
    (tool : Z) (xml : Element) (info : RecordInfo) (rows : list RecordRef) :
  published
    (events (snd (run_stream polarity_scores push_accepts xml info rows
                    (AyxPlugin_init tool)))) =
  [info ++ [mkField "Sentiment_Output" v_wstring 100;
            mkField "Negative_Score" double 0;
            mkField "Neutral_Score" double 0;
            mkField "Positive_Score" double 0;
            mkField "Compound_Score" double 0]].
Proof.
  rewrite run_stream_configured. unfold bind.
  destruct (ii_init_configured tool xml info) as (f1 & f2 & f3 & f4 & f5 & _ & E).
  destruct (resolve_input_frame info
              (negotiated info (configured tool xml) f1 f2 f3 f4 f5)) as (Hev & _).
  rewrite <- E in Hev.
  assert (Hpub : published (events (snd (ii_init info (configured tool xml))))
                 = [output_schema info]).
  { rewrite Hev. unfold negotiated; simpl. rewrite configured_events.
    rewrite !published_app. now destruct (elem_find "FieldSelect" xml). }
  destruct (ii_init info (configured tool xml)) as [[[|]|e] p1]; simpl in *;
    try exact Hpub.
  now rewrite published_push_records.
Qed.

(** C5: in a stream that has run without failure so far, for a row that
    has one value per incoming field and a non-null configured text, the
    delivery pushes one output record that has one value per field of the
    published layout and whose value at every incoming position [i] is the
    row's value at [i].  (The incoming layout does not already use one of
    the five new names, and the analyzer's scores print as plain
    decimals.) *)
Theorem original_fields_are_copied_verbatim
    (tool : Z) (xml : Element) (info : RecordInfo) (rows : list RecordRef)
    (p : Plugin) (fld : FieldObj) (row : RecordRef) (sentence : string) :
  names_free info = true ->
  run_stream polarity_scores push_accepts xml info rows (AyxPlugin_init tool)
    = (Ret true, p) ->
  length row = length info ->
  input_field p = Some fld ->
  get_as_string fld row = Some sentence ->
  wf_scores (polarity_scores sentence) = true ->
  exists out_record p',
    ii_push_record polarity_scores push_accepts row p =
      (Ret (push_accepts (events p) out_record), p') /\
    pushed (events p') = pushed (events p) ++ [out_record] /\
    length out_record = length (output_schema info) /\
    forall i, (i < length info)%nat -> out_record !! i = row !! i.
Proof.
  intros Hfree Hrun Hlen Hfld Htext Hwf.
  destruct (ii_push_record_ready polarity_scores push_accepts info row p fld
              sentence (streaming_ready _ _ _ _ _ _ _ Hfree Hrun)
              Hfld Hlen Htext Hwf) as (p' & Hp & Hev).
  exists (row ++ sentiment_values (polarity_scores sentence)), p'.
  split; [exact Hp|]. split; [now rewrite Hev, pushed_app|].
  split.
  - unfold output_schema. rewrite !length_app, Hlen. reflexivity.
  - intros i Hi. apply lookup_app_l. lia.
Qed.

(** C6: under the same conditions, the pushed record carries, after the
    incoming values, the text of the analyzer's four-score dictionary cut to
    the 100 characters of [Sentiment_Output], and then the negative,
    neutral, positive and compound scores as numbers.  The numbers are the
    first four matches of the pattern in that text, which are the four
    scores as printed, and reading each back gives the score itself. *)
Theorem sentiment_fields_hold_the_scores
    (tool : Z) (xml : Element) (info : RecordInfo) (rows : list RecordRef)
    (p : Plugin) (fld : FieldObj) (row : RecordRef) (sentence : string) :
  names_free info = true ->
  run_stream polarity_scores push_accepts xml info rows (AyxPlugin_init tool)
    = (Ret true, p) ->
  length row = length info ->
  input_field p = Some fld ->
  get_as_string fld row = Some sentence ->
  wf_scores (polarity_scores sentence) = true ->
  let snt := polarity_scores sentence in
  let label := substring 0 100 (str_scores snt) in
  exists out_record p',
    ii_push_record polarity_scores push_accepts row p =
      (Ret (push_accepts (events p) out_record), p') /\
    pushed (events p') = pushed (events p) ++ [out_record] /\
    drop (length info) out_record =
      [VStr label; VDouble (neg snt); VDouble (neu snt); VDouble (pos snt);
       VDouble (compound snt)] /\
    (String.length label <= 100)%nat /\
    findall number_pattern (str_scores snt) =
      [repr_float (neg snt); repr_float (neu snt); repr_float (pos snt);
       repr_float (compound snt)] /\
    map parse_float (findall number_pattern (str_scores snt)) =
      [Some (neg snt); Some (neu snt); Some (pos snt); Some (compound snt)].
Proof.
  intros Hfree Hrun Hlen Hfld Htext Hwf snt label.
  destruct (ii_push_record_ready polarity_scores push_accepts info row p fld
              sentence (streaming_ready _ _ _ _ _ _ _ Hfree Hrun)
              Hfld Hlen Htext Hwf) as (p' & Hp & Hev).
  exists (row ++ sentiment_values snt), p'.
  split; [exact Hp|]. split; [now rewrite Hev, pushed_app|].
  split; [rewrite <- Hlen; now rewrite drop_app_length|].
  split; [apply length_substring_le|].
  subst snt label.
  rewrite (findall_str_scores _ Hwf). split; [reflexivity|].
  unfold wf_scores in Hwf.
  apply andb_prop in Hwf as [Hwf W4]. apply andb_prop in Hwf as [Hwf W3].
  apply andb_prop in Hwf as [W1 W2]. simpl.
  now rewrite !parse_float_repr.
Qed.

(** C7: when a delivery logs a push that the downstream tool refused, that
    push is the only event of the call (no second attempt), the callback
    returns [False], and the engine's loop over the rows stops there: the
    remaining rows are not delivered. *)
Theorem refused_push_ends_the_stream
    (row : RecordRef) (rest : list RecordRef) (p p' : Plugin)
    (res : outcome bool) (r : RecordRef) :
  ii_push_record polarity_scores push_accepts row p = (res, p') ->
  In (ev_anchor_push_record r false) (logged_by p p') ->
  res = Ret false /\
  logged_by p p' = [ev_anchor_push_record r false] /\
  push_records polarity_scores push_accepts (row :: rest) p = (Ret false, p').
Proof.
  intros Hpush Hin.
  pose proof (ii_push_record_log polarity_scores push_accepts row p) as Hlog.
  cbv zeta in Hlog. rewrite Hpush in Hlog. simpl in Hlog. unfold logged_by in *.
  destruct Hlog as [(e & _ & Hev)|(r0 & Hres & Hev)]; rewrite Hev in *.
  - rewrite drop_all in Hin. destruct Hin.
  - rewrite drop_app_length in *. destruct Hin as [Hin|[]].
    injection Hin as -> Hacc. rewrite Hacc in *.
    repeat split; [exact Hres|].
    rewrite push_records_cons, Hpush, Hres. reflexivity.
Qed.

(** C10: the constructor leaves the five attributes holding field names;
    the first [ii_init] of a configured instance rebinds each of them to the
    field object found under that name in the published layout, whether or
    not it goes on to resolve the input field; and every later [ii_init] on
    that instance stops at its first [add_field] with a [TypeError], leaving
    the state, and so the log, as it was. *)
Theorem ii_init_applies_once
    (tool : Z) (xml : Element) (info : RecordInfo) :
  let p1 := snd (ii_init info (configured tool xml)) in
  fresh (AyxPlugin_init tool) /\
  fresh (configured tool xml) /\
  (exists f1 f2 f3 f4 f5,
     Sentiment_score p1 = AField f1 /\ Negative_Score p1 = AField f2 /\
     Neutral_Score p1 = AField f3 /\ Positive_Score p1 = AField f4 /\
     Compound_Score p1 = AField f5 /\
     resolved_in info "Sentiment_Output" f1 /\
     resolved_in info "Negative_Score" f2 /\
     resolved_in info "Neutral_Score" f3 /\
     resolved_in info "Positive_Score" f4 /\
     resolved_in info "Compound_Score" f5) /\
  forall info',
    ii_init info' p1 = (Raise (TypeError "field name is not a str"), p1).
Proof.
  intros p1. split; [now repeat split|]. split; [apply configured_fresh|].
  destruct (ii_init_configured tool xml info)
    as (f1 & f2 & f3 & f4 & f5 & (R1 & R2 & R3 & R4 & R5) & E).
  destruct (resolve_input_frame info
              (negotiated info (configured tool xml) f1 f2 f3 f4 f5))
    as (_ & _ & A1 & A2 & A3 & A4 & A5).
  rewrite <- E in A1, A2, A3, A4, A5. fold p1 in A1, A2, A3, A4, A5.
  split.
  - exists f1, f2, f3, f4, f5. unfold negotiated in *. simpl in *.
    repeat (split; [assumption|]). assumption.
  - intros info'. now apply (ii_init_rebound info' p1 f1).
Qed.

(** C2, as amended: when the configuration has no [FieldSelect] element,
    [pi_init] reports the error "Please select field to analyze" and still
    fetches the output anchor; the engine's next call, [ii_init], publishes
    the layout and then raises on the attribute that was never set, so it
    does not return success; no row is pushed, and any row delivered
    afterwards raises before anything is pushed. *)
Theorem missing_selection_is_reported_and_nothing_is_pushed
    (tool : Z) (xml : Element) (info : RecordInfo) (rows : list RecordRef) :
  elem_find "FieldSelect" xml = None ->
  let out := run_stream polarity_scores push_accepts xml info rows
               (AyxPlugin_init tool) in
  events (snd (pi_init xml (AyxPlugin_init tool))) =
    [ev_output_message tool msg_error "Please select field to analyze";
     ev_get_output_anchor "Output"] /\
  fst out = Raise (AttributeError "AyxPlugin" "field_selection") /\
  events (snd out) =
    [ev_output_message tool msg_error "Please select field to analyze";
     ev_get_output_anchor "Output";
     ev_anchor_init (output_schema info)] /\
  forall row, exists p',
    ii_push_record polarity_scores push_accepts row (snd out) =
      (Raise (AttributeError "AyxPlugin" "input_field"), p') /\
    events p' = events (snd out).
Proof.
  intros Habsent out. split; [unfold pi_init; rewrite Habsent; reflexivity|].
  destruct (ii_init_configured tool xml info) as (f1 & f2 & f3 & f4 & f5 & _ & E).
  set (q := negotiated info (configured tool xml) f1 f2 f3 f4 f5) in *.
  assert (Hsel : field_selection q = None).
  { unfold q, negotiated; simpl. now rewrite configured_selection, Habsent. }
  assert (Hout : out = (Raise (AttributeError "AyxPlugin" "field_selection"), q)).
  { unfold out. rewrite run_stream_configured. unfold bind.
    now rewrite E, resolve_input_cases, Hsel. }
  rewrite Hout. cbn [fst snd].
  split; [reflexivity|]. split.
  - unfold q, negotiated; simpl. now rewrite configured_events, Habsent.
  - intros row. apply ii_push_record_unresolved.
    + unfold wired, q, negotiated; simpl. rewrite configured_anchor. eauto.
    + unfold q, negotiated; simpl. apply configured_rest.
Qed.

(** C3, as amended: when the configured name is neither a field of the
    incoming layout nor one of the five new names, [ii_init] does not return
    success: after publishing the layout, the SDK's lookup raises.  The
    plugin itself sends no message; no row is pushed, and any row delivered
    afterwards raises before anything is pushed. *)
Theorem unknown_selection_raises_in_ii_init
    (tool : Z) (xml : Element) (e : Element) (name : string)
    (info : RecordInfo) (rows : list RecordRef) :
  elem_find "FieldSelect" xml = Some e ->
  elem_text e = Some name ->
  get_field_num name (output_schema info) = None ->
  let out := run_stream polarity_scores push_accepts xml info rows
               (AyxPlugin_init tool) in
  fst out = Raise (SdkError "field not found") /\
  events (snd out) =
    [ev_get_output_anchor "Output"; ev_anchor_init (output_schema info)] /\
  forall row, exists p',
    ii_push_record polarity_scores push_accepts row (snd out) =
      (Raise (AttributeError "AyxPlugin" "input_field"), p') /\
    events p' = events (snd out).
Proof.
  intros Hfind Htext Hnone out.
  destruct (ii_init_configured tool xml info) as (f1 & f2 & f3 & f4 & f5 & _ & E).
  set (q := negotiated info (configured tool xml) f1 f2 f3 f4 f5) in *.
  assert (Hsel : field_selection q = Some (Some name)).
  { unfold q, negotiated; simpl. now rewrite configured_selection, Hfind, <- Htext. }
  assert (Hout : out = (Raise (SdkError "field not found"), q)).
  { unfold out. rewrite run_stream_configured. unfold bind.
    now rewrite E, resolve_input_cases, Hsel, Hnone. }
  rewrite Hout. cbn [fst snd].
  split; [reflexivity|]. split.
  - unfold q, negotiated; simpl. now rewrite configured_events, Hfind.
  - intros row. apply ii_push_record_unresolved.
    + unfold wired, q, negotiated; simpl. rewrite configured_anchor. eauto.
    + unfold q, negotiated; simpl. apply configured_rest.
Qed.

End Claims.

(** C1, at a row of the example stream whose comment is null. *)
Lemma null_text_row_raises_unbound_local_witness :
  exists p',
    ii_push_record ex_analyzer accept_all ex_null_row (ex_started accept_all) =
      (Raise (UnboundLocalError "out_record"), p') /\
    events p' = events (ex_started accept_all) /\
    pushed (events p') = pushed (events (ex_started accept_all)).
Proof.
  apply (null_text_row_raises_unbound_local ex_analyzer accept_all
           7 ex_xml ex_info [] (ex_started accept_all) ex_comment ex_null_row);
    vm_compute; reflexivity.
Defined.

(** C5, at the row of the example stream. *)
Lemma original_fields_are_copied_verbatim_witness :
  exists out_record p',
    ii_push_record ex_analyzer accept_all ex_row (ex_started accept_all) =
      (Ret (accept_all (events (ex_started accept_all)) out_record), p') /\
    pushed (events p') = pushed (events (ex_started accept_all)) ++ [out_record] /\
    length out_record = length (output_schema ex_info) /\
    forall i, (i < length ex_info)%nat -> out_record !! i = ex_row !! i.
Proof.
  apply (original_fields_are_copied_verbatim ex_analyzer accept_all
           7 ex_xml ex_info [] (ex_started accept_all) ex_comment ex_row
           "I love this product"); vm_compute; reflexivity.
Defined.

(** C6, at the row of the example stream. *)
Lemma sentiment_fields_hold_the_scores_witness :
  let snt := ex_analyzer "I love this product" in
  let label := substring 0 100 (str_scores snt) in
  exists out_record p',
    ii_push_record ex_analyzer accept_all ex_row (ex_started accept_all) =
      (Ret (accept_all (events (ex_started accept_all)) out_record), p') /\
    pushed (events p') = pushed (events (ex_started accept_all)) ++ [out_record] /\
    drop (length ex_info) out_record =
      [VStr label; VDouble (neg snt); VDouble (neu snt); VDouble (pos snt);
       VDouble (compound snt)] /\
    (String.length label <= 100)%nat /\
    findall number_pattern (str_scores snt) =
      [repr_float (neg snt); repr_float (neu snt); repr_float (pos snt);
       repr_float (compound snt)] /\
    map parse_float (findall number_pattern (str_scores snt)) =
      [Some (neg snt); Some (neu snt); Some (pos snt); Some (compound snt)].
Proof.
  apply (sentiment_fields_hold_the_scores ex_analyzer accept_all
           7 ex_xml ex_info [] (ex_started accept_all) ex_comment ex_row
           "I love this product"); vm_compute; reflexivity.
Defined.

(** C9: two fresh instances, whatever their tool ids and whatever their
    downstream tools answer, given the same configuration, the same incoming
    layout and the same row, push the same records (the analyzer being one
    function of the text). *)
Theorem same_row_gives_same_output
    (polarity_scores : string -> Scores)
    (accepts1 accepts2 : list event -> RecordRef -> bool)
    (tool1 tool2 : Z) (xml : Element) (info : RecordInfo) (row : RecordRef) :
  pushed (events (snd (run_stream polarity_scores accepts1 xml info [row]
                         (AyxPlugin_init tool1)))) =
  pushed (events (snd (run_stream polarity_scores accepts2 xml info [row]
                         (AyxPlugin_init tool2)))).
Proof. apply agree_run_one. Qed.

(** C7, at the row of the example stream with a downstream tool that
    refuses it; a second row is waiting and is not delivered. *)
Lemma refused_push_ends_the_stream_witness :
  fst (ii_push_record ex_analyzer refuse_all ex_row (ex_started refuse_all))
    = Ret false /\
  logged_by (ex_started refuse_all)
    (snd (ii_push_record ex_analyzer refuse_all ex_row (ex_started refuse_all)))
    = [ev_anchor_push_record (ex_row ++ sentiment_values ex_scores) false] /\
  push_records ex_analyzer refuse_all [ex_row; ex_null_row]
    (ex_started refuse_all) =
  (Ret false,
   snd (ii_push_record ex_analyzer refuse_all ex_row (ex_started refuse_all))).
Proof.
  apply (refused_push_ends_the_stream ex_analyzer refuse_all ex_row
           [ex_null_row] (ex_started refuse_all)
           (snd (ii_push_record ex_analyzer refuse_all ex_row
                   (ex_started refuse_all)))
           (fst (ii_push_record ex_analyzer refuse_all ex_row
                   (ex_started refuse_all)))
           (ex_row ++ sentiment_values ex_scores)).
  - vm_compute; reflexivity.
  - vm_compute; left; reflexivity.
Defined.

(** C2, counterexample: with no [FieldSelect] element the plugin still uses
    its output anchor.  [pi_init] fetches the anchor, and the [ii_init] the
    engine calls next publishes the layout through it. *)
Lemma missing_selection_still_uses_the_anchor :
  elem_find "FieldSelect" ex_xml_absent = None /\
  anchor_activity (events (snd (pi_init ex_xml_absent (AyxPlugin_init 7))))
    = true /\
  published
    (events (snd (run_stream ex_analyzer accept_all ex_xml_absent ex_info
                    [ex_row] (AyxPlugin_init 7))))
    = [output_schema ex_info].
Proof. vm_compute. repeat split. Qed.

(** C2 as amended, at the configuration without [FieldSelect]. *)
Lemma missing_selection_is_reported_and_nothing_is_pushed_witness :
  events (snd (pi_init ex_xml_absent (AyxPlugin_init 7))) =
    [ev_output_message 7 msg_error "Please select field to analyze";
     ev_get_output_anchor "Output"] /\
  fst (run_stream ex_analyzer accept_all ex_xml_absent ex_info [ex_row]
         (AyxPlugin_init 7)) =
    Raise (AttributeError "AyxPlugin" "field_selection") /\
  events (snd (run_stream ex_analyzer accept_all ex_xml_absent ex_info [ex_row]
                 (AyxPlugin_init 7))) =
    [ev_output_message 7 msg_error "Please select field to analyze";
     ev_get_output_anchor "Output";
     ev_anchor_init (output_schema ex_info)] /\
  forall row, exists p',
    ii_push_record ex_analyzer accept_all row
      (snd (run_stream ex_analyzer accept_all ex_xml_absent ex_info [ex_row]
              (AyxPlugin_init 7))) =
      (Raise (AttributeError "AyxPlugin" "input_field"), p') /\
    events p' =
      events (snd (run_stream ex_analyzer accept_all ex_xml_absent ex_info
                     [ex_row] (AyxPlugin_init 7))).
Proof.
  apply (missing_selection_is_reported_and_nothing_is_pushed
           ex_analyzer accept_all 7 ex_xml_absent ex_info [ex_row]).
  reflexivity.
Defined.

(** When the element is there but empty, [pi_init] reports nothing. *)
Example empty_selection_is_not_reported :
  messages (events (snd (pi_init ex_xml_empty (AyxPlugin_init 7)))) = [] /\
  field_selection (snd (pi_init ex_xml_empty (AyxPlugin_init 7))) = Some None.
Proof. vm_compute. split; reflexivity. Qed.

(** C3, counterexample.  The name [Compound_Score] is not a field of the
    incoming layout, yet [ii_init] returns success and no message is sent:
    the name is looked up in the outgoing layout, where the plugin has just
    added it.  The name [missing] is in neither layout: [ii_init] raises,
    and the plugin sends no message either. *)
Lemma unresolved_selection_is_not_reported :
  (get_field_num "Compound_Score" ex_info = None /\
   fst (run_stream ex_analyzer accept_all ex_xml_new_name ex_info []
          (AyxPlugin_init 7)) = Ret true /\
   messages
     (events (snd (run_stream ex_analyzer accept_all ex_xml_new_name ex_info []
                     (AyxPlugin_init 7)))) = []) /\
  (get_field_num "missing" ex_info = None /\
   fst (run_stream ex_analyzer accept_all ex_xml_unknown ex_info [ex_row]
          (AyxPlugin_init 7)) = Raise (SdkError "field not found") /\
   messages
     (events (snd (run_stream ex_analyzer accept_all ex_xml_unknown ex_info
                     [ex_row] (AyxPlugin_init 7)))) = []).
Proof. vm_compute. repeat split. Qed.

(** C3 as amended, at the configuration that names [missing]. *)
Lemma unknown_selection_raises_in_ii_init_witness :
  fst (run_stream ex_analyzer accept_all ex_xml_unknown ex_info [ex_row]
         (AyxPlugin_init 7)) = Raise (SdkError "field not found") /\
  events (snd (run_stream ex_analyzer accept_all ex_xml_unknown ex_info [ex_row]
                 (AyxPlugin_init 7))) =
    [ev_get_output_anchor "Output"; ev_anchor_init (output_schema ex_info)] /\
  forall row, exists p',
    ii_push_record ex_analyzer accept_all row
      (snd (run_stream ex_analyzer accept_all ex_xml_unknown ex_info [ex_row]
              (AyxPlugin_init 7))) =
      (Raise (AttributeError "AyxPlugin" "input_field"), p') /\
    events p' =
      events (snd (run_stream ex_analyzer accept_all ex_xml_unknown ex_info
                     [ex_row] (AyxPlugin_init 7))).
Proof.
  apply (unknown_selection_raises_in_ii_init ex_analyzer accept_all 7
           ex_xml_unknown (Elem "FieldSelect" (Some "missing") []) "missing"
           ex_info [ex_row]); reflexivity.
Defined.

(** * Whole streams *)

Section Streams.

Variable polarity_scores : string -> Scores.
Variable push_accepts : list event -> RecordRef -> bool.

Lemma ii_init_events_configured (tool : Z) (xml : Element) (info : RecordInfo) :
  events (snd (ii_init info (configured tool xml))) =
  events (configured tool xml) ++ [ev_anchor_init (output_schema info)] /\
  output_anchor (snd (ii_init info (configured tool xml))) = Some "Output".
Proof.
  destruct (ii_init_configured tool xml info) as (f1 & f2 & f3 & f4 & f5 & _ & E).
  rewrite E, resolve_input_cases.
  set (q := negotiated info (configured tool xml) f1 f2 f3 f4 f5).
  assert (Hq : events q = events (configured tool xml) ++
                 [ev_anchor_init (output_schema info)] /\
               output_anchor q = Some "Output").
  { unfold q, negotiated; simpl. now rewrite configured_anchor. }
  destruct (field_selection q) as [[name|]|]; try exact Hq.
  destruct (get_field_num name (output_schema info)) as [i|]; [|exact Hq].
  destruct (field_at (output_schema info) i); exact Hq.
Qed.

Lemma ready_wired (info : RecordInfo) (p : Plugin) : ready info p -> wired p.
Proof.
  intros (_ & Ha & _ & Hcp & Hcr). repeat split; [exact Ha | rewrite Hcp; eauto |].
  destruct (record_creator p); [eauto | discriminate].
Qed.

(** Negotiation with a configured name that the incoming layout has. *)
Lemma ii_init_selected (tool : Z) (xml e : Element) (name : string)
    (info : RecordInfo) (i : nat) :
  names_free info = true ->
  elem_find "FieldSelect" xml = Some e -> elem_text e = Some name ->
  get_field_num name info = Some i ->
  exists f p1,
    ii_init info (configured tool xml) = (Ret true, p1) /\
    ready info p1 /\
    input_field p1 = Some (mkFieldObj i f) /\
    events p1 = [ev_get_output_anchor "Output";
                 ev_anchor_init (output_schema info)].
Proof.
  intros Hfree Hfind Htext Hnum.
  destruct (get_field_num_lookup _ _ _ Hnum) as (f & Hf & _).
  destruct (ii_init_configured tool xml info) as (f1 & f2 & f3 & f4 & f5 & _ & E).
  set (q := negotiated info (configured tool xml) f1 f2 f3 f4 f5) in *.
  assert (Hsel : field_selection q = Some (Some name)).
  { unfold q, negotiated; simpl. now rewrite configured_selection, Hfind, <- Htext. }
  assert (Hout : get_field_num name (output_schema info) = Some i).
  { unfold output_schema. now rewrite get_field_num_app, Hnum. }
  assert (Hat : field_at (output_schema info) i = Some (mkFieldObj i f)).
  { unfold field_at, output_schema. now rewrite (lookup_app_l_Some _ _ _ _ Hf). }
  assert (Hinit : ii_init info (configured tool xml) =
                  (Ret true, snd (set_input_field (mkFieldObj i f) q))).
  { now rewrite E, resolve_input_cases, Hsel, Hout, Hat. }
  exists f, (snd (set_input_field (mkFieldObj i f) q)).
  split; [exact Hinit|].
  destruct (ii_init_ready info _ _ Hfree (configured_fresh tool xml)
              (ex_intro _ _ (configured_anchor tool xml)) Hinit) as [Hready Hev].
  split; [exact Hready|]. split; [reflexivity|].
  rewrite Hev, configured_events, Hfind. reflexivity.
Qed.

(** Delivering rows that are all good to a downstream tool that accepts
    them: one push per row, of the augmented row. *)
Lemma push_records_good (info : RecordInfo) (fld : FieldObj)
    (good rest : list RecordRef) (p : Plugin) :
  (forall log r, push_accepts log r = true) ->
  ready info p -> input_field p = Some fld ->
  forallb (good_row polarity_scores info (fo_pos fld)) good = true ->
  exists p',
    push_records polarity_scores push_accepts (good ++ rest) p =
      push_records polarity_scores push_accepts rest p' /\
    ready info p' /\ input_field p' = Some fld /\
    events p' = events p ++
      map (fun row =>
             ev_anchor_push_record
               (augmented polarity_scores (fo_pos fld) row) true) good.
Proof.
  intros Hacc. revert p. induction good as [|row good IH]; intros p Hready Hfld Hgood.
  - exists p. simpl. now rewrite app_nil_r.
  - simpl in Hgood. apply andb_prop in Hgood as [Hrow Hgood].
    unfold good_row in Hrow. apply andb_prop in Hrow as [Hlen Htext].
    apply Nat.eqb_eq in Hlen.
    destruct (row_text (fo_pos fld) row) as [sentence|] eqn:Erow; [|discriminate].
    destruct (ii_push_record_ready polarity_scores push_accepts info row p fld
                sentence Hready Hfld Hlen Erow Htext) as (p1 & Hp1 & Hev1).
    rewrite Hacc in Hp1, Hev1.
    pose proof (keeps_ii_push_record polarity_scores push_accepts row p) as Hk.
    rewrite Hp1 in Hk. simpl in Hk.
    assert (Hfld1 : input_field p1 = Some fld).
    { destruct Hk as (_ & _ & _ & _ & _ & _ & _ & _ & -> & _). exact Hfld. }
    destruct (IH p1 (ready_kept _ _ _ Hk Hready) Hfld1 Hgood)
      as (p' & Hp' & Hready' & Hfld' & Hev').
    exists p'. split.
    + rewrite <- app_comm_cons, push_records_cons, Hp1. exact Hp'.
    + split; [exact Hready'|]. split; [exact Hfld'|].
      rewrite Hev', Hev1, <- app_assoc. simpl.
      unfold augmented at 2. now rewrite Erow.
Qed.

(** X1: a stream of good rows is delivered whole.  With a configured name
    that the incoming layout has, none of the five new names taken, rows
    that all have one value per incoming field and a text whose scores print
    as plain decimals, and a downstream tool that accepts every record, the
    stream returns success and the downstream tool has seen exactly: the
    anchor fetched, the layout published once, and then one record per row,
    in the order of the rows, each the row followed by the sentiment values
    of its own text. *)
Theorem good_rows_are_delivered_in_order
    (tool : Z) (xml e : Element) (name : string) (info : RecordInfo)
    (i : nat) (rows : list RecordRef) :
  names_free info = true ->
  elem_find "FieldSelect" xml = Some e -> elem_text e = Some name ->
  get_field_num name info = Some i ->
  forallb (good_row polarity_scores info i) rows = true ->
  (forall log r, push_accepts log r = true) ->
  exists p,
    run_stream polarity_scores push_accepts xml info rows (AyxPlugin_init tool)
      = (Ret true, p) /\
    events p =
      [ev_get_output_anchor "Output"; ev_anchor_init (output_schema info)] ++
      map (fun row =>
             ev_anchor_push_record (augmented polarity_scores i row) true)
          rows.
Proof.
  intros Hfree Hfind Htext Hnum Hgood Hacc.
  destruct (ii_init_selected tool xml e name info i Hfree Hfind Htext Hnum)
    as (f & p1 & Hinit & Hready & Hfld & Hev).
  destruct (push_records_good info (mkFieldObj i f) rows [] p1 Hacc Hready Hfld
              Hgood) as (p' & Hp' & _ & _ & Hev').
  exists p'. rewrite run_stream_configured. unfold bind. rewrite Hinit.
  rewrite app_nil_r in Hp'. rewrite Hp'. split; [reflexivity|].
  now rewrite Hev', Hev.
Qed.

(** X2: a stream stops at its first row with a null text.  The good rows
    before it are delivered as in X1; on the null row the callback raises
    [UnboundLocalError], and neither that row nor any row after it reaches
    the downstream tool, whatever those later rows are. *)
Theorem stream_stops_at_first_null_text
    (tool : Z) (xml e : Element) (name : string) (info : RecordInfo)
    (i : nat) (good : list RecordRef) (null_row : RecordRef)
    (rest : list RecordRef) :
  names_free info = true ->
  elem_find "FieldSelect" xml = Some e -> elem_text e = Some name ->
  get_field_num name info = Some i ->
  forallb (good_row polarity_scores info i) good = true ->
  (forall log r, push_accepts log r = true) ->
  row_text i null_row = None ->
  let out := run_stream polarity_scores push_accepts xml info
               (good ++ null_row :: rest) (AyxPlugin_init tool) in
  fst out = Raise (UnboundLocalError "out_record") /\
  events (snd out) =
    [ev_get_output_anchor "Output"; ev_anchor_init (output_schema info)] ++
    map (fun row =>
           ev_anchor_push_record (augmented polarity_scores i row) true)
        good.
Proof.
  intros Hfree Hfind Htext Hnum Hgood Hacc Hnull out.
  destruct (ii_init_selected tool xml e name info i Hfree Hfind Htext Hnum)
    as (f & p1 & Hinit & Hready & Hfld & Hev).
  destruct (push_records_good info (mkFieldObj i f) good (null_row :: rest) p1
              Hacc Hready Hfld Hgood) as (p' & Hp' & Hready' & Hfld' & Hev').
  destruct (ii_push_record_null polarity_scores push_accepts null_row p'
              (mkFieldObj i f) (ready_wired _ _ Hready') Hfld' Hnull)
    as (p2 & Hp2 & Hev2).
  assert (Hout : out = (Raise (UnboundLocalError "out_record"), p2)).
  { unfold out. rewrite run_stream_configured. unfold bind. rewrite Hinit.
    rewrite Hp', push_records_cons, Hp2. reflexivity. }
  rewrite Hout. cbn [fst snd]. split; [reflexivity|].
  now rewrite Hev2, Hev', Hev.
Qed.

Lemma push_records_count (rows : list RecordRef) (p : Plugin) :
  let out := push_records polarity_scores push_accepts rows p in
  (length (pushed (events (snd out))) <=
     length (pushed (events p)) + length rows)%nat /\
  (fst out = Ret true ->
   length (pushed (events (snd out))) =
     (length (pushed (events p)) + length rows)%nat).
Proof.
  revert p; induction rows as [|row rows IH]; intros p; cbv zeta.
  - simpl. split; [lia | intros _; lia].
  - rewrite push_records_cons.
    pose proof (ii_push_record_log polarity_scores push_accepts row p) as Hlog.
    cbv zeta in Hlog.
    destruct (ii_push_record polarity_scores push_accepts row p)
      as [res p1]; simpl in Hlog.
    destruct Hlog as [(e & -> & Hev)|(r & -> & Hev)].
    + simpl. rewrite Hev. split; [lia | discriminate].
    + assert (Hlen : length (pushed (events p1)) =
                     S (length (pushed (events p)))).
      { rewrite Hev, pushed_app, length_app. simpl. lia. }
      destruct (push_accepts (events p) r).
      * specialize (IH p1). cbv zeta in IH. destruct IH as [IH1 IH2].
        simpl length. split; [lia|]. intros H. rewrite (IH2 H). lia.
      * cbn [fst snd]. simpl length. split; [lia | discriminate].
Qed.

(** X3: a stream never pushes more records than it was given rows, and when
    it returns success it has pushed exactly one record per row.  This
    holds for every configuration, layout, rows and downstream tool. *)
Theorem at_most_one_record_per_row
    (tool : Z) (xml : Element) (info : RecordInfo) (rows : list RecordRef) :
  let out := run_stream polarity_scores push_accepts xml info rows
               (AyxPlugin_init tool) in
  (length (pushed (events (snd out))) <= length rows)%nat /\
  (fst out = Ret true -> length (pushed (events (snd out))) = length rows).
Proof.
  cbv zeta. rewrite run_stream_configured. unfold bind.
  destruct (ii_init_events_configured tool xml info) as [Hev _].
  assert (Hnone : pushed (events (snd (ii_init info (configured tool xml)))) = []).
  { rewrite Hev, configured_events, !pushed_app.
    now destruct (elem_find "FieldSelect" xml). }
  destruct (ii_init info (configured tool xml)) as [[[|]|ex] p1];
    unfold ret; cbn [fst snd] in *.
  - pose proof (push_records_count rows p1) as H. cbv zeta in H.
    rewrite Hnone in H. exact H.
  - rewrite Hnone. simpl. split; [lia | discriminate].
  - rewrite Hnone. simpl. split; [lia | discriminate].
Qed.



(** X5: a progress report is relayed unchanged and does not disturb the
    rows.  [ii_update_progress] tells the engine the fraction it was given,
    under the plugin's tool id, and then tells the downstream tool the same
    fraction; without an output anchor the second step raises after the
    first was done.  Either way the record that the next delivery pushes is
    the one it would have pushed without the report. *)
Theorem progress_is_relayed_and_leaves_rows_alone
    (d_percent : Q) (row : RecordRef) (p : Plugin) :
  let out := ii_update_progress d_percent p in
  fst out =
    match output_anchor p with
    | Some _ => Ret tt
    | None => Raise (AttributeError "AyxPlugin" "output_anchor")
    end /\
  logged_by p (snd out) =
    ev_output_tool_progress (n_tool_id p) d_percent ::
    match output_anchor p with
    | Some _ => [ev_anchor_update_progress d_percent]
    | None => []
    end /\
  pushed (events (snd (ii_push_record polarity_scores push_accepts row (snd out))))
  = pushed (events (snd (ii_push_record polarity_scores push_accepts row p))).
Proof.
  cbv zeta.
  assert (Hagree : agree (snd (ii_update_progress d_percent p)) p).
  { unfold ii_update_progress, bind, get, getattr, emit, modify. simpl.
    destruct (output_anchor p) eqn:Ea; unfold agree; simpl;
      rewrite ?pushed_app; simpl; rewrite ?app_nil_r, ?Ea; now repeat split. }
  split; [|split].
  - unfold ii_update_progress, bind, get, getattr, emit, modify. simpl.
    now destruct (output_anchor p).
  - unfold logged_by, ii_update_progress, bind, get, getattr, emit, modify. simpl.
    destruct (output_anchor p); simpl; rewrite <- ?app_assoc;
      now rewrite drop_app_length.
  - apply (agree_ii_push_record polarity_scores push_accepts push_accepts
             row _ _ Hagree).
Qed.

(** X6: however a stream went, closing it works.  After [run_stream], be
    its result success, failure or an exception, [ii_close] followed by
    [pi_close] returns, and adds to the log exactly: the record count
    declared final, the anchor closed, and only then the check that it was
    closed.  No record and no layout is added. *)
Theorem closing_works_after_any_stream
    (tool : Z) (xml : Element) (info : RecordInfo) (rows : list RecordRef)
    (b_has_errors : bool) :
  let p := snd (run_stream polarity_scores push_accepts xml info rows
                  (AyxPlugin_init tool)) in
  let out := close_stream b_has_errors p in
  fst out = Ret tt /\
  logged_by p (snd out) =
    [ev_anchor_output_record_count true; ev_anchor_close;
     ev_anchor_assert_close] /\
  pushed (events (snd out)) = pushed (events p) /\
  published (events (snd out)) = published (events p).
Proof.
  intros p out.
  assert (Ha : output_anchor p = Some "Output").
  { unfold p. rewrite run_stream_configured. unfold bind.
    destruct (ii_init_events_configured tool xml info) as [_ Hanchor].
    destruct (ii_init info (configured tool xml)) as [[[|]|ex] p1];
      cbn [fst snd] in *; try exact Hanchor.
    pose proof (keeps_push_records polarity_scores push_accepts rows p1) as Hk.
    destruct Hk as (_ & _ & _ & _ & _ & _ & _ & -> & _). exact Hanchor. }
  clearbody p. subst out.
  destruct p as [t s1 s2 s3 s4 s5 sel oa inf cp cr ev]; simpl in Ha; subst oa.
  unfold logged_by. cbn -[drop]. rewrite <- !app_assoc.
  split; [reflexivity|]. split; [now rewrite drop_app_length|].
  rewrite pushed_app, published_app. simpl. now rewrite !app_nil_r.
Qed.

End Streams.

(** * Calls in any order *)

Section AnyOrder.

Variable polarity_scores : string -> Scores.
Variable push_accepts : list event -> RecordRef -> bool.

Lemma ii_init_no_anchor (info : RecordInfo) (p : Plugin) :
  output_anchor p = None -> snd (ii_init info p) = p.
Proof.
  intros H. destruct p as [t s1 s2 s3 s4 s5 sel oa inf cp cr ev].
  simpl in H. subst oa.
  destruct s1, s2, s3, s4, s5; reflexivity.
Qed.

Lemma anchor_activity_snoc (log : list event) (e : event) :
  anchor_activity (log ++ [e]) = anchor_activity log || is_anchor_event e.
Proof.
  unfold anchor_activity. rewrite existsb_app. simpl. now rewrite orb_false_r.
Qed.

Lemma unconfigured_do_call (c : call) (p : Plugin) :
  is_pi_init c = false -> unconfigured p ->
  unconfigured (do_call polarity_scores push_accepts c p).
Proof.
  intros Hc (Ha & Hcr & Hlog).
  destruct c; try discriminate; cbn [do_call].
  - now repeat split.
  - now repeat split.
  - now repeat split.
  - unfold pi_close, bind, getattr. rewrite Ha. now repeat split.
  - rewrite (ii_init_no_anchor _ _ Ha). now repeat split.
  - unfold ii_push_record, on_creator, bind at 1 2, getattr. rewrite Hcr.
    now repeat split.
  - unfold ii_update_progress, bind, get, getattr. cbn [emit modify snd fst].
    cbn [output_anchor]. rewrite Ha. repeat split; try assumption.
    cbn [events snd]. rewrite anchor_activity_snoc, Hlog. reflexivity.
  - unfold ii_close, bind, getattr. rewrite Ha. now repeat split.
Qed.

(** X7: nothing reaches the downstream tool before [pi_init].  Whatever
    the engine calls and in whatever order, as long as [pi_init] is not among
    the calls, the log holds no event of the output anchor (nothing fetched,
    published, pushed, closed), and the instance still has no anchor. *)
Theorem nothing_downstream_before_pi_init (tool : Z) (cs : list call) :
  forallb (fun c => negb (is_pi_init c)) cs = true ->
  anchor_activity
    (events (do_calls polarity_scores push_accepts cs (AyxPlugin_init tool)))
    = false /\
  output_anchor (do_calls polarity_scores push_accepts cs (AyxPlugin_init tool))
    = None.
Proof.
  intros Hcs.
  assert (H : unconfigured
                (do_calls polarity_scores push_accepts cs (AyxPlugin_init tool))).
  { unfold do_calls.
    assert (H0 : unconfigured (AyxPlugin_init tool)) by now repeat split.
    revert H0. generalize (AyxPlugin_init tool).
    induction cs as [|c cs IH]; intros p Hp; [exact Hp|].
    simpl in Hcs. apply andb_prop in Hcs as [Hc Hcs].
    simpl. apply (IH Hcs). apply unconfigured_do_call; [|exact Hp].
    now destruct (is_pi_init c). }
  destruct H as (Ha & _ & Hlog). now split.
Qed.

Lemma once_kept (p p' : Plugin) :
  Sentiment_score p' = Sentiment_score p ->
  Negative_Score p' = Negative_Score p ->
  Neutral_Score p' = Neutral_Score p ->
  Positive_Score p' = Positive_Score p ->
  Compound_Score p' = Compound_Score p ->
  published (events p') = published (events p) ->
  once p -> once p'.
Proof.
  unfold once, fresh. intros -> -> -> -> -> ->. tauto.
Qed.

Lemma once_ii_init (info : RecordInfo) (p : Plugin) :
  once p -> once (snd (ii_init info p)).
Proof.
  intros [[Hfresh Hpub]|[[f Hf] Hpub]].
  - destruct (output_anchor p) as [a|] eqn:Ha.
    + destruct (ii_init_fresh info p Hfresh (ex_intro _ a Ha))
        as (f1 & f2 & f3 & f4 & f5 & _ & _ & _ & _ & _ & E).
      destruct (resolve_input_frame info (negotiated info p f1 f2 f3 f4 f5))
        as (Hev & _ & Hs & _).
      rewrite <- E in Hev, Hs. right. split.
      * exists f1. exact Hs.
      * rewrite Hev. unfold negotiated; simpl.
        rewrite published_app, Hpub. reflexivity.
    + rewrite (ii_init_no_anchor _ _ Ha). left. now split.
  - rewrite (ii_init_rebound info p f Hf). right. eauto.
Qed.

Lemma once_do_call (c : call) (p : Plugin) :
  once p -> once (do_call polarity_scores push_accepts c p).
Proof.
  intros H. destruct c; cbn [do_call].
  - apply (once_kept p); try exact H;
      unfold pi_init; destruct (elem_find "FieldSelect" xml); try reflexivity;
      simpl; rewrite !published_app; simpl; now rewrite !app_nil_r.
  - now apply (once_kept p).
  - now apply (once_kept p).
  - now apply (once_kept p).
  - apply (once_kept p); try exact H;
      unfold pi_close, bind, getattr; destruct (output_anchor p);
      try reflexivity.
    simpl. rewrite published_app. simpl. now rewrite app_nil_r.
  - now apply once_ii_init.
  - pose proof (keeps_ii_push_record polarity_scores push_accepts in_record p)
      as (_ & H1 & H2 & H3 & H4 & H5 & _).
    apply (once_kept p); try assumption. apply published_ii_push_record.
  - apply (once_kept p); try exact H;
      unfold ii_update_progress, bind, get, getattr; cbn [emit modify snd fst];
      cbn [output_anchor]; destruct (output_anchor p); try reflexivity;
      simpl; rewrite !published_app; simpl; now rewrite !app_nil_r.
  - apply (once_kept p); try exact H;
      unfold ii_close, bind, getattr; destruct (output_anchor p);
      try reflexivity.
    simpl. rewrite !published_app. simpl. now rewrite !app_nil_r.
Qed.

(** X8: an instance publishes at most one layout in its life.  Whatever
    the engine calls, how often and in whatever order, the log never holds
    more than one published layout: once [ii_init] has published, the
    attributes it rebinds keep every later [ii_init] from getting as far as
    the anchor. *)
Theorem at_most_one_layout_is_published (tool : Z) (cs : list call) :
  (length (published
             (events (do_calls polarity_scores push_accepts cs
                        (AyxPlugin_init tool)))) <= 1)%nat.
Proof.
  assert (H : once (do_calls polarity_scores push_accepts cs
                      (AyxPlugin_init tool))).
  { unfold do_calls.
    assert (H0 : once (AyxPlugin_init tool)) by (left; now repeat split).
    revert H0. generalize (AyxPlugin_init tool).
    induction cs as [|c cs IH]; intros p Hp; [exact Hp|].
    simpl. apply IH. now apply once_do_call. }
  destruct H as [[_ ->]|[_ ->]]; simpl; lia.
Qed.

(** ** Every record pushed fits the layout published last *)

Lemma conform_snoc (log : list event) (e : event) :
  conform (log ++ [e]) = conform_step (conform log) e.
Proof. unfold conform. now rewrite foldl_app. Qed.

Lemma conform_step_none (l : list event) : foldl conform_step None l = None.
Proof. induction l as [|e l IH]; [reflexivity | exact IH]. Qed.

Lemma conform_last (log : list event) (cur : option RecordInfo) :
  conform log = Some cur -> cur = last (published log).
Proof.
  revert cur. induction log as [|e log IH] using rev_ind; intros cur.
  - now intros [= <-].
  - rewrite conform_snoc, published_app.
    destruct (conform log) as [c|]; [|discriminate].
    specialize (IH c eq_refl). subst c.
    destruct e; simpl; rewrite ?app_nil_r; try (now intros [= <-]).
    + intros [= <-]. now rewrite last_snoc.
    + destruct (last (published log)) as [info|]; [|discriminate].
      destruct (length r =? length info)%nat; [|discriminate].
      now intros [= <-].
Qed.

Lemma conform_split (l1 l2 : list event) (r : RecordRef) (a : bool)
    (cur : option RecordInfo) :
  conform (l1 ++ ev_anchor_push_record r a :: l2) = Some cur ->
  exists info, last (published l1) = Some info /\ length r = length info.
Proof.
  unfold conform. rewrite foldl_app. simpl.
  destruct (foldl conform_step (Some None) l1) as [c1|] eqn:E1.
  - apply conform_last in E1. subst c1. simpl.
    destruct (last (published l1)) as [info|].
    + destruct (Nat.eqb_spec (length r) (length info)) as [Hlen|_].
      * intros _. now exists info.
      * now rewrite conform_step_none.
    + now rewrite conform_step_none.
  - simpl. now rewrite conform_step_none.
Qed.

Lemma arity_ok_kept (p p' : Plugin) :
  events p' = events p -> record_creator p' = record_creator p ->
  arity_ok p -> arity_ok p'.
Proof. unfold arity_ok. now intros -> ->. Qed.

Lemma safe_bind {A B} (m : M A) (k : A -> M B) :
  safe m -> (forall a, safe (k a)) -> safe (bind m k).
Proof.
  intros Hm Hk p Hp. unfold bind. specialize (Hm p Hp).
  destruct (m p) as [[a|e] p1]; simpl in *; [now apply Hk | exact Hm].
Qed.

Lemma safe_ret {A} (a : A) : safe (ret a).
Proof. now intros p. Qed.

Lemma safe_raise {A} e : safe (@raise A e).
Proof. now intros p. Qed.

Lemma safe_get {A} (f : Plugin -> A) : safe (get f).
Proof. now intros p. Qed.

Lemma safe_getattr {A} o n (f : Plugin -> option A) : safe (getattr o n f).
Proof. intros p Hp. unfold getattr. now destruct (f p). Qed.

Lemma safe_index values i : safe (index values i).
Proof. intros p Hp. unfold index. now destruct (values !! i). Qed.

Lemma safe_as_field_name a : safe (as_field_name a).
Proof. intros p Hp. now destruct a. Qed.

Lemma safe_lookup_field n info : safe (lookup_field n info).
Proof.
  intros p Hp. unfold lookup_field.
  destruct (get_field_num n info) as [i|]; [|exact Hp].
  now destruct (field_at info i).
Qed.

Ltac safe_setter :=
  let p := fresh "p" in let H := fresh "H" in
  intros p H; exact (arity_ok_kept p _ eq_refl eq_refl H).

Lemma safe_set_record_copier c : safe (set_record_copier c).
Proof. safe_setter. Qed.

Lemma safe_set_input_field f : safe (set_input_field f).
Proof. safe_setter. Qed.

Lemma safe_set_Sentiment_score a : safe (set_Sentiment_score a).
Proof. safe_setter. Qed.

Lemma safe_set_Negative_Score a : safe (set_Negative_Score a).
Proof. safe_setter. Qed.

Lemma safe_set_Neutral_Score a : safe (set_Neutral_Score a).
Proof. safe_setter. Qed.

Lemma safe_set_Positive_Score a : safe (set_Positive_Score a).
Proof. safe_setter. Qed.

Lemma safe_set_Compound_Score a : safe (set_Compound_Score a).
Proof. safe_setter. Qed.

Lemma safe_set_field_selection v : safe (set_field_selection v).
Proof. safe_setter. Qed.

Lemma safe_set_output_anchor a : safe (set_output_anchor a).
Proof. safe_setter. Qed.

(** An event that is neither a layout nor a record. *)
Lemma safe_emit (e : event) :
  published [e] = [] -> pushed [e] = [] -> safe (emit e).
Proof.
  intros Hpub Hpush p (cur & Hc & Hcr). exists cur. split; [|exact Hcr].
  simpl. rewrite conform_snoc, Hc. now destruct e.
Qed.

(** Lines 139 and 142 together: the layout is published and the creator is
    made for it. *)
Lemma safe_publish {A} (info : RecordInfo) (rest : M A) :
  safe rest ->
  safe (bind (emit (ev_anchor_init info))
          (fun _ => bind (set_record_creator (construct_record_creator info))
                      (fun _ => rest))).
Proof.
  intros Hrest p (cur & Hc & _). unfold bind. simpl. apply Hrest.
  exists (Some info). split.
  - simpl. now rewrite conform_snoc, Hc.
  - simpl. intros c [= <-]. split; [reflexivity|].
    unfold construct_record_creator. simpl. apply length_replicate.
Qed.

Lemma safe_on_creator meth (f : RecordCreator -> RecordCreator) :
  (forall c, rc_info (f c) = rc_info c /\
             (length (rc_buf c) = length (rc_info c) ->
              length (rc_buf (f c)) = length (rc_info c))) ->
  safe (on_creator meth f).
Proof.
  intros Hf p (cur & Hc & Hcr). unfold on_creator, bind, getattr.
  destruct (record_creator p) as [c|] eqn:Ec; simpl.
  - exists cur. split; [exact Hc|]. simpl. intros c' [= <-].
    destruct (Hcr c eq_refl) as [-> Hlen]. destruct (Hf c) as [-> Hl].
    split; [reflexivity | exact (Hl Hlen)].
  - exists cur. split; [exact Hc|]. now rewrite Ec.
Qed.

Lemma length_copy (row buf : RecordRef) (l : list (nat * nat)) :
  length (foldl (copy_pair row) buf l) = length buf.
Proof.
  revert buf; induction l as [|ds l IH]; intros buf; [reflexivity|].
  simpl. rewrite IH. unfold copy_pair.
  destruct (row !! ds.2); [apply length_insert | reflexivity].
Qed.

Lemma safe_store a text : safe (store a text).
Proof.
  intros p (cur & Hc & Hcr). unfold store, bind, get, as_field_obj, getattr.
  destruct (a p) as [n|f]; simpl; [exists cur; now split|].
  destruct (record_creator p) as [c|] eqn:Ec; simpl.
  - exists cur. split; [exact Hc|]. simpl. intros c' [= <-].
    destruct (Hcr c eq_refl) as [-> Hlen]. simpl.
    split; [reflexivity | now rewrite length_insert].
  - exists cur. split; [exact Hc|]. now rewrite Ec.
Qed.

Create HintDb arity.
Hint Resolve safe_ret safe_raise safe_get safe_getattr safe_index
  safe_as_field_name safe_lookup_field safe_set_record_copier
  safe_set_input_field safe_set_Sentiment_score safe_set_Negative_Score
  safe_set_Neutral_Score safe_set_Positive_Score safe_set_Compound_Score
  safe_set_field_selection safe_set_output_anchor safe_store : arity.

Ltac safe_step :=
  first
    [ solve [auto with arity]
    | apply safe_emit; reflexivity
    | apply safe_publish
    | apply safe_on_creator; intros ?; split;
        [reflexivity
        | intros ?; simpl; rewrite ?length_replicate, ?length_copy; congruence]
    | apply safe_bind; [|intros ?]
    | match goal with |- safe (match ?x with _ => _ end) => destruct x end ].

Lemma safe_ii_init info : safe (ii_init info).
Proof. unfold ii_init, resolve. repeat safe_step. Qed.

Lemma safe_build_record row : safe (build_record polarity_scores row).
Proof. unfold build_record. repeat safe_step. Qed.

Lemma returns_buffer_bind {A} (m : M A) (k : A -> M (option RecordRef)) :
  (forall a, returns_buffer (k a)) -> returns_buffer (bind m k).
Proof.
  intros Hk p r. unfold bind. destruct (m p) as [[a|e] p1]; simpl.
  - apply Hk.
  - discriminate.
Qed.

Lemma returns_buffer_build_record row :
  returns_buffer (build_record polarity_scores row).
Proof.
  unfold build_record.
  do 4 (apply returns_buffer_bind; intros ?).
  destruct (get_as_string a2 row); [|intros p r; discriminate].
  cbv zeta. do 9 (apply returns_buffer_bind; intros ?).
  intros p r. unfold bind, getattr.
  destruct (record_creator p) as [c|] eqn:Ec; simpl; [|discriminate].
  intros [= <-]. now exists c.
Qed.

Lemma arity_ok_ii_push_record (row : RecordRef) (p : Plugin) :
  arity_ok p ->
  arity_ok (snd (ii_push_record polarity_scores push_accepts row p)).
Proof.
  intros Hp. rewrite ii_push_record_split. unfold bind.
  pose proof (safe_build_record row p Hp) as H1.
  pose proof (returns_buffer_build_record row p) as H2.
  destruct (build_record polarity_scores row p) as [[o|e] p1]; simpl in *;
    [|exact H1].
  unfold push_out, bind, getattr.
  destruct (output_anchor p1); [|exact H1].
  destruct o as [r|]; simpl; [|exact H1].
  destruct (H2 r eq_refl) as (c & Hc & Hr).
  destruct H1 as (cur & Hcur & Hcr).
  destruct (Hcr c Hc) as [-> Hlen].
  assert (Hok : forall b,
    arity_ok (snd (emit (ev_anchor_push_record r b) p1))).
  { intros b. exists (Some (rc_info c)). split.
    - simpl. rewrite conform_snoc, Hcur. simpl.
      rewrite <- Hr, Hlen, Nat.eqb_refl. reflexivity.
    - simpl. exact Hcr. }
  specialize (Hok (push_accepts (events p1) r)).
  unfold get, ret.
  now destruct (push_accepts (events p1) r).
Qed.

Lemma arity_ok_do_call (c : call) (p : Plugin) :
  arity_ok p -> arity_ok (do_call polarity_scores push_accepts c p).
Proof.
  intros H. destruct c; cbn [do_call].
  - revert p H. change (safe (pi_init xml)).
    unfold pi_init, output_message. repeat safe_step.
  - unfold pi_add_incoming_connection, new_IncomingInterface, modify. simpl.
    destruct H as (cur & Hc & _). exists cur. split; [exact Hc|]. discriminate.
  - exact H.
  - exact H.
  - revert p H. change (safe (pi_close b_has_errors)).
    unfold pi_close. repeat safe_step.
  - now apply safe_ii_init.
  - now apply arity_ok_ii_push_record.
  - revert p H. change (safe (ii_update_progress d_percent)).
    unfold ii_update_progress. repeat safe_step.
  - revert p H. change (safe ii_close).
    unfold ii_close. repeat safe_step.
Qed.

(** X9: every record pushed fits the layout published last.  Whatever the
    engine calls and in whatever order, with whatever rows (of the layout or
    not), each record pushed downstream was preceded by a published layout,
    and has exactly one value per field of the layout published last before
    it. *)
Theorem pushed_records_fit_the_published_layout
    (tool : Z) (cs : list call) (l1 l2 : list event) (r : RecordRef)
    (accepted : bool) :
  events (do_calls polarity_scores push_accepts cs (AyxPlugin_init tool)) =
    l1 ++ ev_anchor_push_record r accepted :: l2 ->
  exists info, last (published l1) = Some info /\ length r = length info.
Proof.
  intros Hlog.
  assert (H : arity_ok (do_calls polarity_scores push_accepts cs
                          (AyxPlugin_init tool))).
  { clear Hlog. unfold do_calls.
    assert (H0 : arity_ok (AyxPlugin_init tool)).
    { exists None. split; [reflexivity | discriminate]. }
    revert H0. generalize (AyxPlugin_init tool).
    induction cs as [|c cs IH]; intros p Hp; [exact Hp|].
    simpl. apply IH. now apply arity_ok_do_call. }
  destruct H as (cur & Hcur & _). rewrite Hlog in Hcur.
  exact (conform_split _ _ _ _ _ Hcur).
Qed.

End AnyOrder.

(** * A downstream tool with a record limit *)

Section RecordLimit.

Variable polarity_scores : string -> Scores.

Lemma push_records_limit (info : RecordInfo) (fld : FieldObj) (k : nat)
    (rows : list RecordRef) :
  forallb (good_row polarity_scores info (fo_pos fld)) rows = true ->
  forall p,
    ready info p -> input_field p = Some fld ->
    (length (pushed (events p)) <= k)%nat ->
    (k - length (pushed (events p)) < length rows)%nat ->
    exists p',
      push_records polarity_scores (accepts_first k) rows p = (Ret false, p') /\
      pushed (events p') =
        pushed (events p) ++
        map (augmented polarity_scores (fo_pos fld))
            (take (S (k - length (pushed (events p)))) rows).
Proof.
  induction rows as [|row rows IH]; intros Hgood p Hready Hfld Hle Hlt;
    [simpl in Hlt; lia|].
  simpl in Hgood. apply andb_prop in Hgood as [Hrow Hgood].
  unfold good_row in Hrow. apply andb_prop in Hrow as [Hlen Htext].
  apply Nat.eqb_eq in Hlen.
  destruct (row_text (fo_pos fld) row) as [sentence|] eqn:Erow; [|discriminate].
  destruct (ii_push_record_ready polarity_scores (accepts_first k) info row p
              fld sentence Hready Hfld Hlen Erow Htext) as (p1 & Hp1 & Hev1).
  assert (Haug : augmented polarity_scores (fo_pos fld) row =
                 row ++ sentiment_values (polarity_scores sentence)).
  { unfold augmented. now rewrite Erow. }
  assert (Hpushed1 : pushed (events p1) =
                     pushed (events p) ++
                     [augmented polarity_scores (fo_pos fld) row]).
  { rewrite Hev1, pushed_app, Haug. reflexivity. }
  rewrite push_records_cons, Hp1. unfold accepts_first at 1.
  destruct (Nat.ltb_spec (length (pushed (events p))) k) as [Hn|Hn].
  - pose proof (keeps_ii_push_record polarity_scores (accepts_first k) row p)
      as Hk.
    rewrite Hp1 in Hk. simpl in Hk.
    assert (Hfld1 : input_field p1 = Some fld).
    { destruct Hk as (_ & _ & _ & _ & _ & _ & _ & _ & -> & _). exact Hfld. }
    assert (Hlen1 : length (pushed (events p1)) =
                    S (length (pushed (events p)))).
    { rewrite Hpushed1, length_app. simpl. lia. }
    destruct (IH Hgood p1 (ready_kept _ _ _ Hk Hready) Hfld1) as (p' & Hp' & Hev');
      [lia | simpl in Hlt; lia |].
    exists p'. split; [exact Hp'|].
    rewrite Hev', Hlen1, Hpushed1, <- app_assoc.
    replace (k - length (pushed (events p)))%nat
      with (S (k - S (length (pushed (events p)))))%nat by lia.
    reflexivity.
  - exists p1. split; [reflexivity|].
    replace (k - length (pushed (events p)))%nat with 0%nat by lia.
    rewrite Hpushed1. reflexivity.
Qed.

(** X10: a downstream tool with a record limit.  When the downstream tool
    takes [k] records and refuses the next, a stream of more than [k] good
    rows returns [False], and has pushed the augmented first [k + 1] rows:
    the refused record included, and nothing after it. *)
Theorem record_limit_ends_the_stream
    (tool : Z) (xml e : Element) (name : string) (info : RecordInfo)
    (i k : nat) (rows : list RecordRef) :
  names_free info = true ->
  elem_find "FieldSelect" xml = Some e -> elem_text e = Some name ->
  get_field_num name info = Some i ->
  forallb (good_row polarity_scores info i) rows = true ->
  (k < length rows)%nat ->
  exists p,
    run_stream polarity_scores (accepts_first k) xml info rows
      (AyxPlugin_init tool) = (Ret false, p) /\
    pushed (events p) = map (augmented polarity_scores i) (take (S k) rows).
Proof.
  intros Hfree Hfind Htext Hnum Hgood Hk.
  destruct (ii_init_selected tool xml e name info i Hfree Hfind Htext Hnum)
    as (f & p1 & Hinit & Hready & Hfld & Hev).
  assert (Hnone : pushed (events p1) = []) by now rewrite Hev.
  destruct (push_records_limit info (mkFieldObj i f) k rows Hgood p1 Hready Hfld)
    as (p' & Hp' & Hev'); [rewrite Hnone; simpl; lia ..|].
  exists p'. rewrite run_stream_configured. unfold bind. rewrite Hinit.
  split; [exact Hp'|].
  rewrite Hev', Hnone. simpl. now rewrite Nat.sub_0_r.
Qed.

End RecordLimit.

(** * The examples as instances *)

(** X1, on three rows of the example stream. *)
Lemma good_rows_are_delivered_in_order_witness :
  exists p,
    run_stream ex_analyzer accept_all ex_xml ex_info ex_rows (AyxPlugin_init 7)
      = (Ret true, p) /\
    events p =
      [ev_get_output_anchor "Output"; ev_anchor_init (output_schema ex_info)] ++
      map (fun row => ev_anchor_push_record (augmented ex_analyzer 1 row) true)
          ex_rows.
Proof.
  apply (good_rows_are_delivered_in_order ex_analyzer accept_all 7 ex_xml
           (Elem "FieldSelect" (Some "comment") []) "comment" ex_info 1 ex_rows);
    vm_compute; reflexivity.
Defined.

(** X2, with a null comment between two rows of the example stream. *)
Lemma stream_stops_at_first_null_text_witness :
  fst (run_stream ex_analyzer accept_all ex_xml ex_info
         ([ex_row] ++ ex_null_row :: [ex_row]) (AyxPlugin_init 7)) =
    Raise (UnboundLocalError "out_record") /\
  events (snd (run_stream ex_analyzer accept_all ex_xml ex_info
                 ([ex_row] ++ ex_null_row :: [ex_row]) (AyxPlugin_init 7))) =
    [ev_get_output_anchor "Output"; ev_anchor_init (output_schema ex_info)] ++
    map (fun row => ev_anchor_push_record (augmented ex_analyzer 1 row) true)
        [ex_row].
Proof.
  apply (stream_stops_at_first_null_text ex_analyzer accept_all 7 ex_xml
           (Elem "FieldSelect" (Some "comment") []) "comment" ex_info 1
           [ex_row] ex_null_row [ex_row]);
    vm_compute; reflexivity.
Defined.

(** X7, on a sequence of every call but [pi_init]. *)
Lemma nothing_downstream_before_pi_init_witness :
  anchor_activity
    (events (do_calls ex_analyzer accept_all ex_calls_unconfigured
               (AyxPlugin_init 7))) = false /\
  output_anchor (do_calls ex_analyzer accept_all ex_calls_unconfigured
                   (AyxPlugin_init 7)) = None.
Proof.
  apply (nothing_downstream_before_pi_init ex_analyzer accept_all 7
           ex_calls_unconfigured).
  reflexivity.
Defined.

(** X9, at the record pushed for a row that is longer than the layout. *)
Lemma pushed_records_fit_the_published_layout_witness :
  exists info,
    last (published
            [ev_get_output_anchor "Output";
             ev_anchor_init (output_schema ex_info);
             ev_anchor_push_record (ex_row ++ sentiment_values ex_scores) true;
             ev_output_tool_progress 7 (1 # 2);
             ev_anchor_update_progress (1 # 2)]) = Some info /\
    length ([VInt 5; VStr "x"] ++ sentiment_values ex_scores) = length info.
Proof.
  apply (pushed_records_fit_the_published_layout ex_analyzer accept_all 7
           ex_calls _ [] _ true).
  vm_compute. reflexivity.
Defined.

(** X10, on the three example rows with a limit of one record. *)
Lemma record_limit_ends_the_stream_witness :
  exists p,
    run_stream ex_analyzer (accepts_first 1) ex_xml ex_info ex_rows
      (AyxPlugin_init 7) = (Ret false, p) /\
    pushed (events p) = map (augmented ex_analyzer 1) (take 2 ex_rows).
Proof.
  apply (record_limit_ends_the_stream ex_analyzer 7 ex_xml
           (Elem "FieldSelect" (Some "comment") []) "comment" ex_info 1 1
           ex_rows);
    vm_compute; first [reflexivity | lia].
Defined.
